(** * esp32-ble2mqtt: the MQTT session manager of [src/mqtt.c]

    A shallow embedding of [mqtt.c] and the properties of its session
    logic: topic namespacing, the subscription registry, the queue of
    publications made while disconnected, and the handlers of the
    transport's status and message events.

    Modelling conventions.
    - A C string is represented by its content, the characters before the
      terminating NUL; the terminator is implicit and content characters
      are non-zero.  [char *] that may be [NULL] is an [option string].
    - Function pointers and [void *] contexts are addresses in [Z], with
      [NULL = 0]; calling one is recorded as an event.
    - The module-level globals of [mqtt.c] form the record [mqtt_state];
      every function that touches them runs in the monad [M], which also
      records the calls made to the transport ([esp_mqtt_*]) and to the
      application's callbacks, in the order they happen.
    - The transport lives outside [mqtt.c].  The boolean a transport call
      returns is read from [answers], indexed by the number of answers
      consumed so far, so that any behaviour of the transport along a run
      can be chosen.
    - Strings and payloads are values, not heap blocks.  The heap appears
      where [mqtt.c] frees a string it goes on using: the queued topic that
      [mqtt_add_prefix] frees during the flush and [mqtt_publication_free]
      frees again, and the message topic that [mqtt_remove_prefix] frees
      while [mqtt_message_cb] still compares it.  There the state of the
      block ([Live] or [Freed]) is passed along, and using a freed block,
      like reading behind a string's terminator, has no result. *)

From Stdlib Require Import ZArith NArith List String Ascii Bool Lia.
From Stdlib Require Import Strings.Byte.
Import ListNotations.

Open Scope string_scope.
Open Scope list_scope.
Open Scope Z_scope.

(** ** libc string functions used by [mqtt.c] *)

Definition strlen (s : string) : nat := String.length s.

(** Sign of the difference of two bytes read as [unsigned char]. *)
Definition byte_cmp (c d : ascii) : Z :=
  Z.sgn (Z.of_N (N_of_ascii c) - Z.of_N (N_of_ascii d)).

(** [strcmp]: negative, zero or positive; the terminator of the shorter
    string compares below any content character. *)
Fixpoint strcmp (a b : string) : Z :=
  match a, b with
  | EmptyString, EmptyString => 0
  | EmptyString, String _ _ => -1
  | String _ _, EmptyString => 1
  | String c a', String d b' =>
      if Ascii.eqb c d then strcmp a' b' else byte_cmp c d
  end.

(** [strncmp]: as [strcmp], over at most [n] characters. *)
Fixpoint strncmp (a b : string) (n : nat) {struct n} : Z :=
  match n with
  | O => 0
  | S n' =>
      match a, b with
      | EmptyString, EmptyString => 0
      | EmptyString, String _ _ => -1
      | String _ _, EmptyString => 1
      | String c a', String d b' =>
          if Ascii.eqb c d then strncmp a' b' n' else byte_cmp c d
      end
  end.

(** [memcmp] over the buffers of two C strings.  Unlike [strncmp] it does
    not stop at a terminator: the terminator is a byte like any other, and
    it differs from every content byte.  Bytes after a terminator are not
    part of the model; [mqtt_remove_prefix] passes [n = strlen b], so [b]'s
    terminator is never reached, and [a]'s is reached only where it
    differs from a content byte of [b]. *)
Fixpoint memcmp (a b : string) (n : nat) {struct n} : Z :=
  match n with
  | O => 0
  | S n' =>
      match a, b with
      | EmptyString, EmptyString => 0
      | EmptyString, String _ _ => -1
      | String _ _, EmptyString => 1
      | String c a', String d b' =>
          if Ascii.eqb c d then memcmp a' b' n' else byte_cmp c d
      end
  end.

(** Pointer arithmetic [s + n] on a C string, for [n <= strlen s]: the
    string that starts [n] characters further.  For a larger [n] the
    pointer leaves the string and what it points to is not a function of
    [s]; the empty string stands there, and a caller that can get there
    checks the bound first ([remove_prefix_in_bounds]). *)
Fixpoint advance (n : nat) (s : string) : string :=
  match n, s with
  | O, _ => s
  | S _, EmptyString => EmptyString
  | S n', String _ s' => advance n' s'
  end.

(** ** Types of [mqtt.c] *)

Definition ptr := Z.
Definition NULL : ptr := 0.
Definition is_null (p : ptr) : bool := p =? NULL.

Record mqtt_subscription_t := {
  sub_topic : string;
  sub_cb : ptr;
  sub_ctx : ptr;
  sub_free_cb : ptr
}.

Record mqtt_publications_t := {
  pub_topic : string;
  pub_payload : list byte;
  pub_len : N;
  pub_qos : Z;
  pub_retained : Z
}.

Inductive esp_mqtt_status_t :=
| ESP_MQTT_STATUS_DISCONNECTED
| ESP_MQTT_STATUS_CONNECTED.

(** The internal state: the globals [prefix], [subscription_list],
    [publications_list], [is_connected] (only ever assigned 0 or 1, and
    only tested for zero), [on_connected_cb] and [on_disconnected_cb]. *)
Record mqtt_state := {
  prefix : option string;
  subscription_list : list mqtt_subscription_t;
  publications_list : list mqtt_publications_t;
  is_connected : bool;
  on_connected_cb : ptr;
  on_disconnected_cb : ptr
}.

Definition set_prefix (p : option string) (g : mqtt_state) : mqtt_state :=
  {| prefix := p;
     subscription_list := subscription_list g;
     publications_list := publications_list g;
     is_connected := is_connected g;
     on_connected_cb := on_connected_cb g;
     on_disconnected_cb := on_disconnected_cb g |}.

Definition set_subscription_list (l : list mqtt_subscription_t)
  (g : mqtt_state) : mqtt_state :=
  {| prefix := prefix g;
     subscription_list := l;
     publications_list := publications_list g;
     is_connected := is_connected g;
     on_connected_cb := on_connected_cb g;
     on_disconnected_cb := on_disconnected_cb g |}.

Definition set_publications_list (l : list mqtt_publications_t)
  (g : mqtt_state) : mqtt_state :=
  {| prefix := prefix g;
     subscription_list := subscription_list g;
     publications_list := l;
     is_connected := is_connected g;
     on_connected_cb := on_connected_cb g;
     on_disconnected_cb := on_disconnected_cb g |}.

Definition set_is_connected (b : bool) (g : mqtt_state) : mqtt_state :=
  {| prefix := prefix g;
     subscription_list := subscription_list g;
     publications_list := publications_list g;
     is_connected := b;
     on_connected_cb := on_connected_cb g;
     on_disconnected_cb := on_disconnected_cb g |}.

Definition set_on_connected_cb (cb : ptr) (g : mqtt_state) : mqtt_state :=
  {| prefix := prefix g;
     subscription_list := subscription_list g;
     publications_list := publications_list g;
     is_connected := is_connected g;
     on_connected_cb := cb;
     on_disconnected_cb := on_disconnected_cb g |}.

Definition set_on_disconnected_cb (cb : ptr) (g : mqtt_state) : mqtt_state :=
  {| prefix := prefix g;
     subscription_list := subscription_list g;
     publications_list := publications_list g;
     is_connected := is_connected g;
     on_connected_cb := on_connected_cb g;
     on_disconnected_cb := cb |}.

(** ** Calls that leave [mqtt.c] *)

Inductive event :=
| Esp_mqtt_init (buffer_size timeout : Z)
| Esp_mqtt_start (host : string) (port : Z)
    (client_id username password : string)
| Esp_mqtt_stop
| Esp_mqtt_subscribe (topic : string) (qos : Z)
| Esp_mqtt_unsubscribe (topic : string)
| Esp_mqtt_publish (topic : string) (payload : list byte) (len : N)
    (qos : Z) (retained : Z)
| Call_on_connected (cb : ptr)
| Call_on_disconnected (cb : ptr)
| Call_message_cb (cb : ptr) (topic : string) (payload : list byte) (len : N)
    (ctx : ptr)
| Call_free_cb (free_cb : ptr) (ctx : ptr).

(** ** The monad: globals, the calls made so far, the transport's answers *)

Record world := {
  globals : mqtt_state;
  calls : list event;
  answers : nat -> bool;
  asked : nat
}.

(** [None] is a call that does not return a result: a loop that ran out
    of fuel, or undefined behaviour (a block freed twice, a read of a freed
    block or behind a string's terminator). *)
Definition M (A : Type) : Type := world -> option (A * world).

Definition undefined {A} : M A := fun _ => None.

Definition ret {A} (a : A) : M A := fun w => Some (a, w).

Definition bind {A B} (m : M A) (f : A -> M B) : M B :=
  fun w => match m w with
           | Some (a, w') => f a w'
           | None => None
           end.

Notation "x <- m ;; k" := (bind m (fun x => k))
  (at level 61, m at next level, right associativity).
Notation "m ;;; k" := (bind m (fun _ => k))
  (at level 61, right associativity).

Definition get : M mqtt_state := fun w => Some (globals w, w).

Definition modify (f : mqtt_state -> mqtt_state) : M unit :=
  fun w => Some (tt, {| globals := f (globals w); calls := calls w;
                        answers := answers w; asked := asked w |}).

(** A call whose result is not used. *)
Definition emit (e : event) : M unit :=
  fun w => Some (tt, {| globals := globals w; calls := calls w ++ [e];
                        answers := answers w; asked := asked w |}).

(** A transport call that returns a [bool]. *)
Definition ask (e : event) : M bool :=
  fun w => Some (answers w (asked w),
                 {| globals := globals w; calls := calls w ++ [e];
                    answers := answers w; asked := S (asked w) |}).

(** [while (cond) body], the loop variables in [s]. *)
Fixpoint while_loop {S : Type} (fuel : nat) (cond : S -> M bool)
  (body : S -> M S) (s : S) : M S :=
  match fuel with
  | O => fun _ => None
  | Datatypes.S fuel' =>
      c <- cond s ;;
      if c then s' <- body s ;; while_loop fuel' cond body s'
      else ret s
  end.

Definition esp_mqtt_subscribe (topic : string) (qos : Z) : M bool :=
  ask (Esp_mqtt_subscribe topic qos).
Definition esp_mqtt_unsubscribe (topic : string) : M bool :=
  ask (Esp_mqtt_unsubscribe topic).
Definition esp_mqtt_publish (topic : string) (payload : list byte) (len : N)
  (qos retained : Z) : M bool :=
  ask (Esp_mqtt_publish topic payload len qos retained).
Definition esp_mqtt_start (host : string) (port : Z)
  (client_id username password : string) : M unit :=
  emit (Esp_mqtt_start host port client_id username password).
Definition esp_mqtt_stop : M unit := emit Esp_mqtt_stop.
Definition esp_mqtt_init (buffer_size timeout : Z) : M unit :=
  emit (Esp_mqtt_init buffer_size timeout).

(** ** The functions of [mqtt.c] *)

(** [mqtt_add_prefix], reading the global [prefix]. *)
Definition mqtt_add_prefix (prefix : option string) (topic : string) : string :=
  match prefix with
  | None => topic
  | Some EmptyString => topic
  | Some p => (p ++ topic)%string
  end.

(** [mqtt_remove_prefix]: the branch that drops [strlen(prefix)] characters
    is taken when [memcmp] returns non-zero. *)
Definition mqtt_remove_prefix (prefix : option string) (topic : string)
  : string :=
  match prefix with
  | None => topic
  | Some EmptyString => topic
  | Some p =>
      if negb (memcmp topic p (strlen p) =? 0)
      then advance (strlen p) topic
      else topic
  end.

(** The state of a heap block that holds a string. *)
Inductive block := Live | Freed.

(** Line 46: [mqtt_add_prefix] frees the string it was passed when it
    returns a prefixed copy. *)
Definition mqtt_add_prefix_frees (prefix : option string) : bool :=
  match prefix with
  | None => false
  | Some EmptyString => false
  | Some _ => true
  end.

(** Line 56: [mqtt_remove_prefix] frees the string it was passed when it
    returns a stripped copy. *)
Definition mqtt_remove_prefix_frees (prefix : option string) (topic : string)
  : bool :=
  match prefix with
  | None => false
  | Some EmptyString => false
  | Some p => negb (memcmp topic p (strlen p) =? 0)
  end.

(** Line 55: [topic + strlen(prefix)] stays inside the string. *)
Definition remove_prefix_in_bounds (prefix : option string) (topic : string)
  : bool :=
  match prefix with
  | None => true
  | Some p => (strlen p <=? strlen topic)%nat
  end.

Definition mqtt_set_on_connected_cb (cb : ptr) : M unit :=
  modify (set_on_connected_cb cb).

Definition mqtt_set_on_disconnected_cb (cb : ptr) : M unit :=
  modify (set_on_disconnected_cb cb).

(** Walks to the last [next] link and stores the new record there. *)
Definition mqtt_subscription_add (l : list mqtt_subscription_t)
  (topic : string) (cb ctx free_cb : ptr) : list mqtt_subscription_t :=
  l ++ [{| sub_topic := topic; sub_cb := cb; sub_ctx := ctx;
              sub_free_cb := free_cb |}].

Definition mqtt_subscription_free (s : mqtt_subscription_t) : M unit :=
  if negb (is_null (sub_ctx s)) && negb (is_null (sub_free_cb s))
  then emit (Call_free_cb (sub_free_cb s) (sub_ctx s))
  else ret tt.

(** Called on [&subscription_list]: each round unlinks the head, then
    frees it. *)
Fixpoint mqtt_subscriptions_free (l : list mqtt_subscription_t) : M unit :=
  match l with
  | [] => modify (set_subscription_list [])
  | cur :: next =>
      modify (set_subscription_list next) ;;;
      mqtt_subscription_free cur ;;;
      mqtt_subscriptions_free next
  end.

(** Returns the list after the unlinking. *)
Fixpoint mqtt_subscription_remove (l : list mqtt_subscription_t)
  (topic : string) : M (list mqtt_subscription_t) :=
  match l with
  | [] => ret []
  | cur :: next =>
      if strncmp (sub_topic cur) topic (strlen topic) =? 0
      then mqtt_subscription_free cur ;;; ret next
      else rest <- mqtt_subscription_remove next topic ;; ret (cur :: rest)
  end.

(** The new entry becomes the head ([pub->next = *list; *list = pub]); the
    payload is a copy of [len] bytes. *)
Definition mqtt_publication_add (l : list mqtt_publications_t)
  (topic : string) (payload : list byte) (len : N) (qos retained : Z)
  : list mqtt_publications_t :=
  {| pub_topic := topic; pub_payload := firstn (N.to_nat len) payload;
     pub_len := len; pub_qos := qos; pub_retained := retained |} :: l.

(** [free(topic); free(payload); free(node)], [topic] being the state of
    the node's topic block. *)
Definition mqtt_publication_free (mqtt_publication : mqtt_publications_t)
  (topic : block) : M unit :=
  match topic with
  | Live => ret tt
  | Freed => undefined
  end.

(** Called on [&publications_list]; [topics] is the state of the topic
    block of each node, in list order. *)
Fixpoint mqtt_publications_free (l : list mqtt_publications_t)
  (topics : list block) : M unit :=
  match l with
  | [] => modify (set_publications_list [])
  | cur :: next =>
      modify (set_publications_list next) ;;;
      mqtt_publication_free cur (hd Live topics) ;;;
      mqtt_publications_free next (tl topics)
  end.

Definition mqtt_publish (topic_in : string) (payload : list byte) (len : N)
  (qos retained : Z) : M Z :=
  g <- get ;;
  let topic := mqtt_add_prefix (prefix g) topic_in in
  if is_connected g
  then
    ok <- esp_mqtt_publish topic payload len qos retained ;;
    ret (Z.b2z (negb (Bool.eqb ok true)))
  else
    modify (set_publications_list
              (mqtt_publication_add (publications_list g) topic payload len
                 qos retained)) ;;;
    ret 0.

(** [mqtt_publish] hands [list->topic] to [mqtt_add_prefix], which frees
    it when it returns a prefixed copy.  The result is the state in which
    the walk leaves the topic block of each node, in list order. *)
Fixpoint mqtt_publications_publish (l : list mqtt_publications_t)
  : M (list block) :=
  match l with
  | [] => ret []
  | cur :: next =>
      g <- get ;;
      mqtt_publish (pub_topic cur) (pub_payload cur) (pub_len cur)
        (pub_qos cur) (pub_retained cur) ;;;
      topics <- mqtt_publications_publish next ;;
      ret ((if mqtt_add_prefix_frees (prefix g) then Freed else Live)
           :: topics)
  end.

(** [retries] is a [uint8_t]. *)
Definition mqtt_subscribe (fuel : nat) (topic_in : string) (qos : Z)
  (cb ctx free_cb : ptr) : M Z :=
  g <- get ;;
  let topic := mqtt_add_prefix (prefix g) topic_in in
  if negb (is_connected g) then ret (-1)
  else
    retries <- while_loop fuel
                 (fun retries =>
                    ok <- esp_mqtt_subscribe topic qos ;;
                    ret (negb (Bool.eqb ok true) && (retries <? 3)))
                 (fun retries => ret ((retries + 1) mod 256))
                 0 ;;
    if retries =? 3 then ret (-1)
    else
      modify (fun g' =>
                set_subscription_list
                  (mqtt_subscription_add (subscription_list g') topic cb ctx
                     free_cb) g') ;;;
      ret 0.

Definition mqtt_unsubscribe (topic_in : string) : M Z :=
  g <- get ;;
  let topic := mqtt_add_prefix (prefix g) topic_in in
  l <- mqtt_subscription_remove (subscription_list g) topic ;;
  modify (set_subscription_list l) ;;;
  g' <- get ;;
  if negb (is_connected g') then ret 0
  else ok <- esp_mqtt_unsubscribe topic ;; ret (Z.b2z ok).

Definition mqtt_status_cb (status : esp_mqtt_status_t) : M unit :=
  match status with
  | ESP_MQTT_STATUS_CONNECTED =>
      modify (set_is_connected true) ;;;
      g <- get ;;
      topics <- mqtt_publications_publish (publications_list g) ;;
      g' <- get ;;
      mqtt_publications_free (publications_list g') topics ;;;
      g'' <- get ;;
      if negb (is_null (on_connected_cb g''))
      then emit (Call_on_connected (on_connected_cb g''))
      else ret tt
  | ESP_MQTT_STATUS_DISCONNECTED =>
      modify (set_is_connected false) ;;;
      g <- get ;;
      mqtt_subscriptions_free (subscription_list g) ;;;
      g' <- get ;;
      if negb (is_null (on_disconnected_cb g'))
      then emit (Call_on_disconnected (on_disconnected_cb g'))
      else ret tt
  end.

(** The loop of [mqtt_message_cb] over the registry, from [cur];
    [topic_in_block] is the state of the block that holds [topic_in].
    Each round starts with [strcmp(cur->topic, topic_in)], which reads
    [topic_in]; a round that calls [mqtt_remove_prefix] leaves the block
    freed if the stripping branch was taken. *)
Fixpoint mqtt_message_cb_from (cur : list mqtt_subscription_t)
  (topic_in : string) (topic_in_block : block) (payload : list byte) (len : N)
  : M unit :=
  match cur with
  | [] => ret tt
  | c :: next =>
      match topic_in_block with
      | Freed => undefined
      | Live =>
          if negb (strcmp (sub_topic c) topic_in =? 0)
          then mqtt_message_cb_from next topic_in Live payload len
          else
            g <- get ;;
            let strips := mqtt_remove_prefix_frees (prefix g) topic_in in
            if strips && negb (remove_prefix_in_bounds (prefix g) topic_in)
            then undefined
            else
              let topic := mqtt_remove_prefix (prefix g) topic_in in
              emit (Call_message_cb (sub_cb c) topic payload len (sub_ctx c))
              ;;;
              mqtt_message_cb_from next topic_in
                (if strips then Freed else Live) payload len
      end
  end.

Definition mqtt_message_cb (topic_in : string) (payload : list byte) (len : N)
  : M unit :=
  g <- get ;;
  mqtt_message_cb_from (subscription_list g) topic_in Live payload len.

Definition mqtt_connect (host : string) (port : Z)
  (client_id username password : string) (prefix_in : option string) : M Z :=
  modify (set_prefix prefix_in) ;;;
  esp_mqtt_start host port client_id username password ;;;
  ret 0.

Definition mqtt_disconnect : M Z :=
  modify (set_is_connected false) ;;;
  esp_mqtt_stop ;;;
  ret 0.

Definition mqtt_initialize : M Z :=
  esp_mqtt_init 256 2000 ;;;
  ret 0.

(** ** The session as a machine

    What can happen to the session: a public operation called by the
    application, or an event delivered by the transport to one of the two
    handlers registered by [mqtt_initialize].  Each runs to completion.
    The application's callbacks are recorded as calls; what they do is
    not part of [mqtt.c], and an operation that a callback performs is an
    action of its own in the sequence. *)

Inductive action :=
| Set_on_connected_cb (cb : ptr)
| Set_on_disconnected_cb (cb : ptr)
| Initialize
| Connect (host : string) (port : Z) (client_id username password : string)
    (prefix_in : option string)
| Disconnect
| Subscribe (topic : string) (qos : Z) (cb ctx free_cb : ptr)
| Unsubscribe (topic : string)
| Publish (topic : string) (payload : list byte) (len : N) (qos retained : Z)
| Status (status : esp_mqtt_status_t)
| Message (topic : string) (payload : list byte) (len : N).

Definition exec (fuel : nat) (a : action) : M unit :=
  match a with
  | Set_on_connected_cb cb => mqtt_set_on_connected_cb cb
  | Set_on_disconnected_cb cb => mqtt_set_on_disconnected_cb cb
  | Initialize => mqtt_initialize ;;; ret tt
  | Connect host port client_id username password prefix_in =>
      mqtt_connect host port client_id username password prefix_in ;;; ret tt
  | Disconnect => mqtt_disconnect ;;; ret tt
  | Subscribe topic qos cb ctx free_cb =>
      mqtt_subscribe fuel topic qos cb ctx free_cb ;;; ret tt
  | Unsubscribe topic => mqtt_unsubscribe topic ;;; ret tt
  | Publish topic payload len qos retained =>
      mqtt_publish topic payload len qos retained ;;; ret tt
  | Status status => mqtt_status_cb status
  | Message topic payload len => mqtt_message_cb topic payload len
  end.

Fixpoint run (fuel : nat) (acts : list action) : M unit :=
  match acts with
  | [] => ret tt
  | a :: rest => exec fuel a ;;; run fuel rest
  end.

(** The initialisers of the globals. *)
Definition initial_state : mqtt_state :=
  {| prefix := None;
     subscription_list := [];
     publications_list := [];
     is_connected := false;
     on_connected_cb := NULL;
     on_disconnected_cb := NULL |}.

Definition boot (transport : nat -> bool) : world :=
  {| globals := initial_state; calls := []; answers := transport;
     asked := 0 |}.

(** The world with the connectivity flag overwritten. *)
Definition with_flag (b : bool) (w : world) : world :=
  {| globals := set_is_connected b (globals w); calls := calls w;
     answers := answers w; asked := asked w |}.

(** ** Vocabulary of the statements *)

(** The world after the calls [es] were made. *)
Definition called (es : list event) (w : world) : world :=
  {| globals := globals w; calls := calls w ++ es; answers := answers w;
     asked := asked w |}.

(** The world after the transport gave [n] more answers. *)
Definition answered (n : nat) (w : world) : world :=
  {| globals := globals w; calls := calls w; answers := answers w;
     asked := (asked w + n)%nat |}.

(** The world with the globals changed by [f]. *)
Definition updated (f : mqtt_state -> mqtt_state) (w : world) : world :=
  {| globals := f (globals w); calls := calls w; answers := answers w;
     asked := asked w |}.

(** The transport call that flushing a queue entry makes. *)
Definition flush_call (prefix : option string) (e : mqtt_publications_t)
  : event :=
  Esp_mqtt_publish (mqtt_add_prefix prefix (pub_topic e)) (pub_payload e)
    (pub_len e) (pub_qos e) (pub_retained e).

(** The destructor call that releasing a record makes, if any. *)
Definition release_calls (s : mqtt_subscription_t) : list event :=
  if negb (is_null (sub_ctx s)) && negb (is_null (sub_free_cb s))
  then [Call_free_cb (sub_free_cb s) (sub_ctx s)]
  else [].

(** The callback invocation that delivers a message to a record. *)
Definition delivery (topic : string) (payload : list byte) (len : N)
  (s : mqtt_subscription_t) : event :=
  Call_message_cb (sub_cb s) topic payload len (sub_ctx s).

(** "Starts with", on records. *)
Definition topic_starts_with (t : string) (s : mqtt_subscription_t) : bool :=
  String.prefix t (sub_topic s).

(** "Removes the first record whose topic starts with the given string;
    no-op if none match", as a function on registries. *)
Fixpoint remove_first_prefixed (t : string) (l : list mqtt_subscription_t)
  : list mqtt_subscription_t :=
  match l with
  | [] => []
  | s :: l' =>
      if topic_starts_with t s then l' else s :: remove_first_prefixed t l'
  end.

(** The first record whose topic starts with [t], if any. *)
Definition first_prefixed (t : string) (l : list mqtt_subscription_t)
  : option mqtt_subscription_t :=
  find (topic_starts_with t) l.

Definition release_found (o : option mqtt_subscription_t) : list event :=
  match o with
  | Some s => release_calls s
  | None => []
  end.

(** "Topic exactly equal", on records. *)
Definition topic_is (t : string) (s : mqtt_subscription_t) : bool :=
  String.eqb (sub_topic s) t.

(** The record a successful [mqtt_subscribe] stores. *)
Definition stored_record (g : mqtt_state) (topic_in : string)
  (cb ctx free_cb : ptr) : mqtt_subscription_t :=
  {| sub_topic := mqtt_add_prefix (prefix g) topic_in;
     sub_cb := cb; sub_ctx := ctx; sub_free_cb := free_cb |}.

(** The transport call [mqtt_subscribe] makes at each attempt. *)
Definition subscribe_call (g : mqtt_state) (topic_in : string) (qos : Z)
  : event :=
  Esp_mqtt_subscribe (mqtt_add_prefix (prefix g) topic_in) qos.

(** The queue entry [mqtt_publish] stores while disconnected. *)
Definition queued_entry (g : mqtt_state) (topic_in : string)
  (payload : list byte) (len : N) (qos retained : Z) : mqtt_publications_t :=
  {| pub_topic := mqtt_add_prefix (prefix g) topic_in;
     pub_payload := firstn (N.to_nat len) payload;
     pub_len := len; pub_qos := qos; pub_retained := retained |}.

(** The application callbacks a status event ends with, if registered. *)
Definition notify_connected (g : mqtt_state) : list event :=
  if negb (is_null (on_connected_cb g))
  then [Call_on_connected (on_connected_cb g)]
  else [].

Definition notify_disconnected (g : mqtt_state) : list event :=
  if negb (is_null (on_disconnected_cb g))
  then [Call_on_disconnected (on_disconnected_cb g)]
  else [].

(** The number of rejections the transport answers with before its first
    acceptance, looking at [bound] answers from answer number [from]. *)
Fixpoint rejections (transport : nat -> bool) (from bound : nat) : nat :=
  match bound with
  | O => O
  | S bound' =>
      if transport from then O
      else S (rejections transport (S from) bound')
  end.

(** The arguments of one [mqtt_publish] call. *)
Record publish_args := {
  arg_topic : string;
  arg_payload : list byte;
  arg_len : N;
  arg_qos : Z;
  arg_retained : Z
}.

Definition publish_action (a : publish_args) : action :=
  Publish (arg_topic a) (arg_payload a) (arg_len a) (arg_qos a)
    (arg_retained a).

Definition entry_of (g : mqtt_state) (a : publish_args) : mqtt_publications_t :=
  queued_entry g (arg_topic a) (arg_payload a) (arg_len a) (arg_qos a)
    (arg_retained a).

(** The calls that go to the transport. *)
Definition is_transport_call (e : event) : bool :=
  match e with
  | Esp_mqtt_init _ _ | Esp_mqtt_start _ _ _ _ _ | Esp_mqtt_stop
  | Esp_mqtt_subscribe _ _ | Esp_mqtt_unsubscribe _
  | Esp_mqtt_publish _ _ _ _ _ => true
  | Call_on_connected _ | Call_on_disconnected _
  | Call_message_cb _ _ _ _ _ | Call_free_cb _ _ => false
  end.

(** Classes of actions. *)
Definition is_subscribe (a : action) : bool :=
  match a with Subscribe _ _ _ _ _ => true | _ => false end.

Definition is_unsubscribe (a : action) : bool :=
  match a with Unsubscribe _ => true | _ => false end.

Definition is_publish (a : action) : bool :=
  match a with Publish _ _ _ _ _ => true | _ => false end.

Definition is_connect (a : action) : bool :=
  match a with Connect _ _ _ _ _ _ => true | _ => false end.

Definition is_status_or_disconnect (a : action) : bool :=
  match a with Status _ | Disconnect => true | _ => false end.

Definition is_set_on_connected_cb (a : action) : bool :=
  match a with Set_on_connected_cb _ => true | _ => false end.

Definition is_set_on_disconnected_cb (a : action) : bool :=
  match a with Set_on_disconnected_cb _ => true | _ => false end.

(** The world in front of another transport. *)
Definition with_answers (transport : nat -> bool) (w : world) : world :=
  {| globals := globals w; calls := calls w; answers := transport;
     asked := asked w |}.

(** The world with the registry replaced. *)
Definition with_registry (l : list mqtt_subscription_t) (w : world) : world :=
  updated (set_subscription_list l) w.

(** "[prefix + topic] if a prefix is configured, else [topic]
    unchanged", in the words of the specification. *)
Definition namespaced (prefix : option string) (topic : string) : string :=
  match prefix with
  | Some p => (p ++ topic)%string
  | None => topic
  end.

(** The transport call that publishes a queue entry as it is stored. *)
Definition sent (e : mqtt_publications_t) : event :=
  Esp_mqtt_publish (pub_topic e) (pub_payload e) (pub_len e) (pub_qos e)
    (pub_retained e).

(** The flush frees no queued topic twice: either [mqtt_add_prefix] frees
    nothing (no prefix, or an empty one), or nothing is queued. *)
Definition flush_defined (g : mqtt_state) : bool :=
  negb (mqtt_add_prefix_frees (prefix g))
  || match publications_list g with [] => true | _ :: _ => false end.

(** A sufficient condition for an action to return: a connected event
    whose flush frees nothing twice, a message whose topic
    [mqtt_remove_prefix] does not strip. *)
Definition exec_defined (a : action) (g : mqtt_state) : bool :=
  match a with
  | Status ESP_MQTT_STATUS_CONNECTED => flush_defined g
  | Message topic _ _ => negb (mqtt_remove_prefix_frees (prefix g) topic)
  | _ => true
  end.

(** Actions that configure no prefix, or an empty one. *)
Definition keeps_no_prefix (a : action) : bool :=
  match a with
  | Connect _ _ _ _ _ prefix_in => negb (mqtt_add_prefix_frees prefix_in)
  | _ => true
  end.

(** The two invariants of the data model. *)
Definition queue_invariant (w : world) : Prop :=
  is_connected (globals w) = true -> publications_list (globals w) = [].

Definition registry_invariant (w : world) : Prop :=
  is_connected (globals w) = false -> subscription_list (globals w) = [].

(** * Properties *)

(** ** The string functions *)

Section CStrings.

Lemma byte_cmp_neq (c d : ascii) : Ascii.eqb c d = false -> byte_cmp c d <> 0.
Proof.
  intros Hcd Hz. unfold byte_cmp in Hz. apply Z.sgn_null_iff in Hz.
  assert (Hn : N_of_ascii c = N_of_ascii d) by lia.
  apply (f_equal ascii_of_N) in Hn. rewrite !ascii_N_embedding in Hn.
  subst d. rewrite Ascii.eqb_refl in Hcd. discriminate.
Qed.

Lemma byte_cmp_eqb (c d : ascii) :
  Ascii.eqb c d = false -> (byte_cmp c d =? 0) = false.
Proof. intros H. apply Z.eqb_neq. now apply byte_cmp_neq. Qed.

Lemma strcmp_eqb (a : string) : forall b, (strcmp a b =? 0) = String.eqb a b.
Proof.
  induction a as [|c a IH]; intros [|d b]; simpl; try reflexivity.
  destruct (Ascii.eqb c d) eqn:E; [apply IH | now apply byte_cmp_eqb].
Qed.

Lemma prefix_cons (c d : ascii) (p s : string) :
  String.prefix (String c p) (String d s)
  = (Ascii.eqb c d && String.prefix p s)%bool.
Proof.
  simpl. destruct (ascii_dec c d) as [->|Hn].
  - now rewrite Ascii.eqb_refl.
  - apply Ascii.eqb_neq in Hn. now rewrite Hn.
Qed.

Lemma prefix_nil_l (s : string) : String.prefix EmptyString s = true.
Proof. now destruct s. Qed.

Lemma strncmp_prefix (b : string) :
  forall a, (strncmp a b (strlen b) =? 0) = String.prefix b a.
Proof.
  induction b as [|d b IH]; intros a.
  - simpl. now rewrite prefix_nil_l.
  - destruct a as [|c a]; [reflexivity|].
    rewrite prefix_cons. cbn [strlen String.length strncmp].
    rewrite (Ascii.eqb_sym d c).
    destruct (Ascii.eqb c d) eqn:E; [apply IH | now apply byte_cmp_eqb].
Qed.

Lemma memcmp_prefix (b : string) :
  forall a, (memcmp a b (strlen b) =? 0) = String.prefix b a.
Proof.
  induction b as [|d b IH]; intros a.
  - simpl. now rewrite prefix_nil_l.
  - destruct a as [|c a]; [reflexivity|].
    rewrite prefix_cons. cbn [strlen String.length memcmp].
    rewrite (Ascii.eqb_sym d c).
    destruct (Ascii.eqb c d) eqn:E; [apply IH | now apply byte_cmp_eqb].
Qed.

Lemma prefix_append (p s : string) : String.prefix p (p ++ s) = true.
Proof.
  induction p as [|c p IH]; [apply prefix_nil_l|].
  cbn [String.append]. rewrite prefix_cons, Ascii.eqb_refl. exact IH.
Qed.

Lemma length_append (p s : string) :
  String.length (p ++ s) = (String.length p + String.length s)%nat.
Proof. induction p as [|c p IH]; simpl; [reflexivity | now rewrite IH]. Qed.

End CStrings.

(** ** The topic namespacer *)

Section Namespacer.

Lemma add_prefix_unset (s : string) :
  mqtt_add_prefix None s = s /\ mqtt_add_prefix (Some EmptyString) s = s.
Proof. split; reflexivity. Qed.

Lemma add_prefix_set (p s : string) :
  p <> EmptyString -> mqtt_add_prefix (Some p) s = (p ++ s)%string.
Proof. destruct p; [congruence | reflexivity]. Qed.

(** [mqtt_remove_prefix] leaves a topic that starts with the prefix as it
    is: the stripping branch is the one where [memcmp] is non-zero. *)
Lemma remove_prefix_of_prefixed (p t : string) :
  String.prefix p t = true -> mqtt_remove_prefix (Some p) t = t.
Proof.
  intros Hp. destruct p as [|c p]; [reflexivity|].
  unfold mqtt_remove_prefix. now rewrite memcmp_prefix, Hp.
Qed.

(** On every topic that does not start with the prefix it drops as many
    characters as the prefix has. *)
Lemma remove_prefix_of_other (p t : string) :
  String.prefix p t = false ->
  mqtt_remove_prefix (Some p) t = advance (strlen p) t.
Proof.
  intros Hp. destruct p as [|c p]; [now rewrite prefix_nil_l in Hp|].
  unfold mqtt_remove_prefix. now rewrite memcmp_prefix, Hp.
Qed.

(** Adding a non-empty prefix and then removing it returns the prefixed
    topic, for every prefix and topic. *)
Lemma remove_after_add (p s : string) :
  p <> EmptyString ->
  mqtt_remove_prefix (Some p) (mqtt_add_prefix (Some p) s) = (p ++ s)%string.
Proof.
  intros Hp. rewrite (add_prefix_set p s Hp).
  apply remove_prefix_of_prefixed, prefix_append.
Qed.

Lemma remove_after_add_differs (p s : string) :
  p <> EmptyString ->
  mqtt_remove_prefix (Some p) (mqtt_add_prefix (Some p) s) <> s.
Proof.
  intros Hp. rewrite (remove_after_add p s Hp). intros E.
  apply (f_equal String.length) in E. rewrite length_append in E.
  destruct p; [congruence | simpl in E; lia].
Qed.

(** C2, at prefix ["home/"] and topic ["lamp"]: the round trip returns
    ["home/lamp"], not ["lamp"].  The prefix is still there after
    [mqtt_remove_prefix]. *)
Theorem remove_after_add_home_lamp :
  mqtt_remove_prefix (Some "home/"%string)
    (mqtt_add_prefix (Some "home/"%string) "lamp"%string)
  = "home/lamp"%string.
Proof. reflexivity. Qed.

End Namespacer.

(** ** Running the functions of [mqtt.c] *)

Ltac monad_unfold :=
  unfold bind, ret, get, modify, emit, ask in *.

Ltac world_eq :=
  unfold called, answered, updated, with_flag; cbn;
  f_equal; try lia;
  rewrite <- ?app_assoc, ?app_nil_r; try reflexivity.

Section Worlds.

Lemma called_nil (w : world) : called [] w = w.
Proof. destruct w. unfold called. cbn. now rewrite app_nil_r. Qed.

Lemma called_called (es1 es2 : list event) (w : world) :
  called es2 (called es1 w) = called (es1 ++ es2) w.
Proof. world_eq. Qed.

Lemma answered_zero (w : world) : answered 0 w = w.
Proof. destruct w. unfold answered. cbn. now rewrite Nat.add_0_r. Qed.

Lemma updated_id (w : world) : updated (fun g => g) w = w.
Proof. now destruct w. Qed.

End Worlds.

Section Registry.

Lemma mqtt_subscription_free_run (s : mqtt_subscription_t) (w : world) :
  mqtt_subscription_free s w = Some (tt, called (release_calls s) w).
Proof.
  unfold mqtt_subscription_free, release_calls.
  destruct (negb (is_null (sub_ctx s)) && negb (is_null (sub_free_cb s))).
  - reflexivity.
  - now rewrite called_nil.
Qed.

(** Clearing the registry releases every record, first to last, and
    leaves it empty. *)
Lemma mqtt_subscriptions_free_run (l : list mqtt_subscription_t) :
  forall w,
    mqtt_subscriptions_free l w
    = Some (tt, called (flat_map release_calls l)
                  (updated (set_subscription_list []) w)).
Proof.
  induction l as [|s l IH]; intros w.
  - cbn. unfold modify. now rewrite called_nil.
  - cbn [mqtt_subscriptions_free flat_map].
    unfold bind at 1. unfold modify at 1.
    unfold bind at 1. rewrite mqtt_subscription_free_run, IH.
    do 2 f_equal. world_eq.
Qed.

Lemma mqtt_subscription_remove_run (t : string)
  (l : list mqtt_subscription_t) :
  forall w,
    mqtt_subscription_remove l t w
    = Some (remove_first_prefixed t l,
            called (release_found (first_prefixed t l)) w).
Proof.
  induction l as [|s l IH]; intros w.
  - cbn. unfold ret. now rewrite called_nil.
  - cbn [mqtt_subscription_remove remove_first_prefixed first_prefixed find].
    unfold topic_starts_with at 1 2. rewrite strncmp_prefix.
    destruct (String.prefix t (sub_topic s)).
    + unfold bind. now rewrite mqtt_subscription_free_run.
    + unfold bind. now rewrite IH.
Qed.

(** What [remove_first_prefixed] removes: nothing when no topic starts
    with [t]; otherwise exactly the first record whose topic does. *)
Lemma remove_first_prefixed_spec (t : string) (l : list mqtt_subscription_t) :
  (first_prefixed t l = None /\
   Forall (fun s => topic_starts_with t s = false) l /\
   remove_first_prefixed t l = l)
  \/
  (exists l1 s l2,
      l = l1 ++ s :: l2 /\
      Forall (fun x => topic_starts_with t x = false) l1 /\
      topic_starts_with t s = true /\
      first_prefixed t l = Some s /\
      remove_first_prefixed t l = l1 ++ l2).
Proof.
  induction l as [|x l IH].
  - left. repeat split. constructor.
  - unfold first_prefixed in *. cbn [remove_first_prefixed find].
    destruct (topic_starts_with t x) eqn:Hx.
    + right. exists [], x, l. repeat split; trivial.
    + destruct IH as [(Hn & Hall & Hrm)
                     | (l1 & s & l2 & Hl & Hall & Hs & Hf & Hrm)].
      * left. repeat split; trivial; [now constructor | now rewrite Hrm].
      * right. exists (x :: l1), s, l2. subst l.
        repeat split; trivial; [now constructor | now rewrite Hrm].
Qed.

End Registry.

Section Dispatch.

Lemma remove_prefix_no_strip (p : option string) (t : string) :
  mqtt_remove_prefix_frees p t = false -> mqtt_remove_prefix p t = t.
Proof.
  destruct p as [[|c p]|]; cbn [mqtt_remove_prefix_frees mqtt_remove_prefix];
    trivial.
  intros H. now rewrite H.
Qed.

Lemma remove_prefix_frees_prefixed (p s : string) :
  mqtt_remove_prefix_frees (Some p) (p ++ s) = false.
Proof.
  destruct p as [|c p]; [reflexivity|].
  unfold mqtt_remove_prefix_frees.
  now rewrite memcmp_prefix, prefix_append.
Qed.

(** A dispatch that returns has only made calls. *)
Lemma mqtt_message_cb_from_calls (topic_in : string) (payload : list byte)
  (len : N) (cur : list mqtt_subscription_t) :
  forall b w w',
    mqtt_message_cb_from cur topic_in b payload len w = Some (tt, w') ->
    exists es, w' = called es w.
Proof.
  induction cur as [|c cur IH]; intros b w w'.
  - cbn. unfold ret. intros H. inversion H. exists []. now rewrite called_nil.
  - cbn [mqtt_message_cb_from]. destruct b; [|discriminate].
    destruct (negb (strcmp (sub_topic c) topic_in =? 0)); [apply IH|].
    unfold bind at 1. unfold get at 1.
    destruct (mqtt_remove_prefix_frees (prefix (globals w)) topic_in
              && negb (remove_prefix_in_bounds (prefix (globals w)) topic_in));
      [discriminate|].
    unfold bind, emit. intros H. apply IH in H. destruct H as [es ->].
    eexists. apply called_called.
Qed.

Lemma mqtt_message_cb_globals (topic_in : string) (payload : list byte)
  (len : N) (w w' : world) :
  mqtt_message_cb topic_in payload len w = Some (tt, w') ->
  globals w' = globals w.
Proof.
  unfold mqtt_message_cb, bind, get. intros H.
  apply mqtt_message_cb_from_calls in H. destruct H as [es ->]. reflexivity.
Qed.

(** Once [mqtt_remove_prefix] has freed the message's topic, the next
    round of the loop reads the freed block. *)
Lemma mqtt_message_cb_from_freed (topic_in : string) (payload : list byte)
  (len : N) (c : mqtt_subscription_t) (cur : list mqtt_subscription_t)
  (w : world) :
  mqtt_message_cb_from (c :: cur) topic_in Freed payload len w = None.
Proof. reflexivity. Qed.

(** No record has the message's topic: nothing is called, and
    [mqtt_remove_prefix] is not reached. *)
Lemma mqtt_message_cb_from_no_match (topic_in : string) (payload : list byte)
  (len : N) (cur : list mqtt_subscription_t) (w : world) :
  Forall (fun s => sub_topic s <> topic_in) cur ->
  mqtt_message_cb_from cur topic_in Live payload len w = Some (tt, w).
Proof.
  intros Hall. induction Hall as [|c cur Hc _ IH]; [reflexivity|].
  cbn [mqtt_message_cb_from]. rewrite strcmp_eqb.
  apply String.eqb_neq in Hc. now rewrite Hc.
Qed.

(** When [mqtt_remove_prefix] does not strip the message's topic (no
    prefix, or a topic that starts with it), [mqtt_message_cb] calls the
    callback of each record whose topic is exactly the message's topic, in
    registry order, and nothing else. *)
Lemma mqtt_message_cb_from_run (topic_in : string) (payload : list byte)
  (len : N) (cur : list mqtt_subscription_t) :
  forall w,
    mqtt_remove_prefix_frees (prefix (globals w)) topic_in = false ->
    mqtt_message_cb_from cur topic_in Live payload len w
    = Some (tt, called
                  (map (delivery
                          (mqtt_remove_prefix (prefix (globals w)) topic_in)
                          payload len)
                     (filter (topic_is topic_in) cur)) w).
Proof.
  induction cur as [|c cur IH]; intros w Hs.
  - cbn. unfold ret. now rewrite called_nil.
  - cbn [mqtt_message_cb_from filter]. unfold topic_is at 1.
    rewrite strcmp_eqb.
    destruct (String.eqb (sub_topic c) topic_in); cbn [negb].
    + unfold bind at 1. unfold get at 1. rewrite Hs. cbn [andb].
      unfold bind, emit. rewrite IH by exact Hs. do 2 f_equal. world_eq.
    + now apply IH.
Qed.

Lemma mqtt_message_cb_run (topic_in : string) (payload : list byte) (len : N)
  (w : world) :
  mqtt_remove_prefix_frees (prefix (globals w)) topic_in = false ->
  mqtt_message_cb topic_in payload len w
  = Some (tt, called
                (map (delivery
                        (mqtt_remove_prefix (prefix (globals w)) topic_in)
                        payload len)
                   (filter (topic_is topic_in) (subscription_list (globals w))))
                w).
Proof.
  intros Hs. unfold mqtt_message_cb, bind, get.
  now apply mqtt_message_cb_from_run.
Qed.

(** With no prefix configured the topic reaches the callbacks as it
    arrived. *)
Lemma mqtt_message_cb_no_prefix (topic_in : string) (payload : list byte)
  (len : N) (w : world) :
  prefix (globals w) = None ->
  mqtt_message_cb topic_in payload len w
  = Some (tt, called
                (map (delivery topic_in payload len)
                   (filter (topic_is topic_in) (subscription_list (globals w))))
                w).
Proof.
  intros Hp. rewrite mqtt_message_cb_run; rewrite Hp; reflexivity.
Qed.

(** With a prefix, a message on a namespaced topic reaches the callbacks
    with the prefix still on it. *)
Lemma mqtt_message_cb_prefixed (p s : string) (payload : list byte) (len : N)
  (w : world) :
  prefix (globals w) = Some p -> p <> EmptyString ->
  mqtt_message_cb (p ++ s)%string payload len w
  = Some (tt, called
                (map (delivery (p ++ s)%string payload len)
                   (filter (topic_is (p ++ s)%string)
                      (subscription_list (globals w))))
                w).
Proof.
  intros Hp Hne.
  rewrite mqtt_message_cb_run;
    rewrite Hp; [|apply remove_prefix_frees_prefixed].
  now rewrite remove_prefix_of_prefixed by apply prefix_append.
Qed.

End Dispatch.

Section Queue.

(** Freeing the queue returns when every topic block is live. *)
Lemma mqtt_publications_free_run (l : list mqtt_publications_t) :
  forall w,
    mqtt_publications_free l (repeat Live (List.length l)) w
    = Some (tt, updated (set_publications_list []) w).
Proof.
  induction l as [|e l IH]; intros w.
  - reflexivity.
  - cbn [mqtt_publications_free List.length repeat hd tl].
    unfold bind, modify, mqtt_publication_free, ret. now rewrite IH.
Qed.

(** It does not return when the first topic block was freed before. *)
Lemma mqtt_publications_free_freed (e : mqtt_publications_t)
  (l : list mqtt_publications_t) (topics : list block) (w : world) :
  mqtt_publications_free (e :: l) (Freed :: topics) w = None.
Proof. reflexivity. Qed.

Lemma mqtt_publish_run (topic_in : string) (payload : list byte) (len : N)
  (qos retained : Z) (w : world) :
  mqtt_publish topic_in payload len qos retained w
  = Some
      (if is_connected (globals w)
       then (if answers w (asked w) then 0 else 1,
             answered 1
               (called [Esp_mqtt_publish
                          (mqtt_add_prefix (prefix (globals w)) topic_in)
                          payload len qos retained] w))
       else (0,
             updated
               (set_publications_list
                  ({| pub_topic :=
                        mqtt_add_prefix (prefix (globals w)) topic_in;
                      pub_payload := firstn (N.to_nat len) payload;
                      pub_len := len; pub_qos := qos;
                      pub_retained := retained |}
                   :: publications_list (globals w))) w)).
Proof.
  unfold mqtt_publish, esp_mqtt_publish. monad_unfold.
  destruct (is_connected (globals w)).
  - destruct (answers w (asked w)); cbn; do 2 f_equal; world_eq.
  - reflexivity.
Qed.

(** While connected, flushing a list of entries makes one transport call
    per entry, head first; each call carries the entry's topic with the
    prefix added to it once more, and with a non-empty prefix each entry's
    topic block is left freed. *)
Lemma mqtt_publications_publish_connected (l : list mqtt_publications_t) :
  forall w,
    is_connected (globals w) = true ->
    mqtt_publications_publish l w
    = Some (repeat
              (if mqtt_add_prefix_frees (prefix (globals w))
               then Freed else Live) (List.length l),
            answered (List.length l)
              (called (map (flush_call (prefix (globals w))) l) w)).
Proof.
  induction l as [|e l IH]; intros w Hc.
  - cbn. unfold ret. now rewrite called_nil, answered_zero.
  - cbn [mqtt_publications_publish]. unfold bind at 1. unfold get at 1.
    unfold bind at 1. rewrite mqtt_publish_run, Hc.
    unfold bind at 1. rewrite IH by exact Hc. unfold ret.
    cbn [List.length repeat]. f_equal. f_equal. world_eq.
Qed.

Lemma add_prefix_no_free (p : option string) (t : string) :
  mqtt_add_prefix_frees p = false -> mqtt_add_prefix p t = t.
Proof. now destruct p as [[|c p]|]. Qed.

Lemma flush_call_no_free (p : option string) (l : list mqtt_publications_t) :
  mqtt_add_prefix_frees p = false -> map (flush_call p) l = map sent l.
Proof.
  intros Hp. apply map_ext. intros e. unfold flush_call, sent.
  now rewrite add_prefix_no_free.
Qed.

Lemma add_prefix_namespaced (p : option string) (t : string) :
  mqtt_add_prefix p t = namespaced p t.
Proof. now destruct p as [[|c p]|]. Qed.

End Queue.

Section Subscribe.

Variables (topic_in : string) (qos : Z) (cb ctx free_cb : ptr).

Lemma rejections_le (transport : nat -> bool) (bound : nat) :
  forall from, (rejections transport from bound <= bound)%nat.
Proof.
  induction bound as [|b IH]; intros from; cbn; [lia|].
  destruct (transport from); [lia | specialize (IH (S from)); lia].
Qed.

(** While connected, with fuel for four rounds: [k] being the number of
    rejections among the transport's first three answers, the transport is
    asked [k + 1] times; with [k < 3] the record is appended and the result
    is 0, with [k = 3] nothing is stored and the result is -1, whatever the
    fourth answer was. *)
Lemma mqtt_subscribe_connected (fuel : nat) (w : world) :
  is_connected (globals w) = true ->
  (4 <= fuel)%nat ->
  mqtt_subscribe fuel topic_in qos cb ctx free_cb w
  = Some
      (let k := rejections (answers w) (asked w) 3 in
       let w' :=
         answered (S k)
           (called (repeat (subscribe_call (globals w) topic_in qos) (S k))
              w) in
       if (k =? 3)%nat then (-1, w')
       else (0, updated
                  (set_subscription_list
                     (subscription_list (globals w)
                      ++ [stored_record (globals w) topic_in cb ctx free_cb]))
                  w')).
Proof.
  intros Hc Hfuel.
  destruct fuel as [|[|[|[|fuel]]]]; try lia.
  unfold mqtt_subscribe, esp_mqtt_subscribe, mqtt_subscription_add.
  monad_unfold. rewrite Hc. cbn [negb while_loop rejections].
  monad_unfold. cbn [asked answers globals calls].
  destruct (answers w (asked w)); cbn;
    [do 2 f_equal; world_eq|].
  destruct (answers w (S (asked w))); cbn;
    [do 2 f_equal; world_eq|].
  destruct (answers w (S (S (asked w)))); cbn;
    [do 2 f_equal; world_eq|].
  destruct (answers w (S (S (S (asked w))))); cbn;
    do 2 f_equal; world_eq.
Qed.

(** Fuel for four rounds is enough in every state. *)
Lemma mqtt_subscribe_returns (fuel : nat) (w : world) :
  (4 <= fuel)%nat ->
  exists r w', mqtt_subscribe fuel topic_in qos cb ctx free_cb w = Some (r, w').
Proof.
  intros Hfuel. destruct (is_connected (globals w)) eqn:Hc.
  - rewrite (mqtt_subscribe_connected fuel w Hc Hfuel). cbv zeta.
    destruct (_ =? 3)%nat; eauto.
  - unfold mqtt_subscribe. monad_unfold. rewrite Hc. cbn. eauto.
Qed.

(** A transport that rejects every attempt is asked four times. *)
Lemma mqtt_subscribe_all_rejected (fuel : nat) (w : world) :
  is_connected (globals w) = true ->
  (4 <= fuel)%nat ->
  (forall i, (i < 4)%nat -> answers w (asked w + i) = false) ->
  mqtt_subscribe fuel topic_in qos cb ctx free_cb w
  = Some (-1,
          answered 4
            (called (repeat (subscribe_call (globals w) topic_in qos) 4) w)).
Proof.
  intros Hc Hfuel Hrej. rewrite (mqtt_subscribe_connected fuel w Hc Hfuel).
  cbn [rejections].
  pose proof (Hrej 0%nat ltac:(lia)) as H0. rewrite Nat.add_0_r in H0.
  pose proof (Hrej 1%nat ltac:(lia)) as H1. rewrite Nat.add_1_r in H1.
  pose proof (Hrej 2%nat ltac:(lia)) as H2.
  replace (asked w + 2)%nat with (S (S (asked w))) in H2 by lia.
  now rewrite H0, H1, H2.
Qed.

(** An acceptance among the first three attempts stores one record. *)
Lemma mqtt_subscribe_accepted (fuel : nat) (w : world) (k : nat) :
  is_connected (globals w) = true ->
  (4 <= fuel)%nat ->
  (k < 3)%nat ->
  (forall i, (i < k)%nat -> answers w (asked w + i) = false) ->
  answers w (asked w + k) = true ->
  mqtt_subscribe fuel topic_in qos cb ctx free_cb w
  = Some (0, updated
               (set_subscription_list
                  (subscription_list (globals w)
                   ++ [stored_record (globals w) topic_in cb ctx free_cb]))
               (answered (S k)
                  (called
                     (repeat (subscribe_call (globals w) topic_in qos) (S k))
                     w))).
Proof.
  intros Hc Hfuel Hk Hrej Hacc.
  rewrite (mqtt_subscribe_connected fuel w Hc Hfuel).
  assert (Hr : rejections (answers w) (asked w) 3 = k).
  { destruct k as [|[|[|k]]]; try lia; cbn [rejections].
    - rewrite Nat.add_0_r in Hacc. now rewrite Hacc.
    - pose proof (Hrej 0%nat ltac:(lia)) as H0. rewrite Nat.add_0_r in H0.
      rewrite Nat.add_1_r in Hacc. now rewrite H0, Hacc.
    - pose proof (Hrej 0%nat ltac:(lia)) as H0. rewrite Nat.add_0_r in H0.
      pose proof (Hrej 1%nat ltac:(lia)) as H1. rewrite Nat.add_1_r in H1.
      replace (asked w + 2)%nat with (S (S (asked w))) in Hacc by lia.
      now rewrite H0, H1, Hacc. }
  cbv zeta. rewrite Hr.
  destruct k as [|[|[|k]]]; try lia; reflexivity.
Qed.

(** Three rejections followed by an acceptance: the fourth attempt is
    made and accepted by the transport, and the result is still -1 with
    no record stored. *)
Lemma mqtt_subscribe_fourth_accepted (fuel : nat) (w : world) :
  is_connected (globals w) = true ->
  (4 <= fuel)%nat ->
  (forall i, (i < 3)%nat -> answers w (asked w + i) = false) ->
  answers w (asked w + 3) = true ->
  mqtt_subscribe fuel topic_in qos cb ctx free_cb w
  = Some (-1,
          answered 4
            (called (repeat (subscribe_call (globals w) topic_in qos) 4) w)).
Proof.
  intros Hc Hfuel Hrej _. rewrite (mqtt_subscribe_connected fuel w Hc Hfuel).
  cbn [rejections].
  pose proof (Hrej 0%nat ltac:(lia)) as H0. rewrite Nat.add_0_r in H0.
  pose proof (Hrej 1%nat ltac:(lia)) as H1. rewrite Nat.add_1_r in H1.
  pose proof (Hrej 2%nat ltac:(lia)) as H2.
  replace (asked w + 2)%nat with (S (S (asked w))) in H2 by lia.
  now rewrite H0, H1, H2.
Qed.

End Subscribe.

Section Unsubscribe.

Lemma mqtt_unsubscribe_run (topic_in : string) (w : world) :
  mqtt_unsubscribe topic_in w
  = Some
      (let g := globals w in
       let topic := mqtt_add_prefix (prefix g) topic_in in
       let w' :=
         updated
           (set_subscription_list
              (remove_first_prefixed topic (subscription_list g)))
           (called (release_found (first_prefixed topic (subscription_list g)))
              w) in
       if is_connected g
       then (Z.b2z (answers w (asked w)),
             answered 1 (called [Esp_mqtt_unsubscribe topic] w'))
       else (0, w')).
Proof.
  unfold mqtt_unsubscribe, esp_mqtt_unsubscribe. unfold bind at 1.
  unfold get at 1. unfold bind at 1.
  rewrite mqtt_subscription_remove_run. monad_unfold.
  cbn [globals called is_connected set_subscription_list].
  destruct (is_connected (globals w)); cbn [negb]; cbv zeta;
    do 2 f_equal; world_eq.
Qed.

End Unsubscribe.

Section StatusEvents.

(** The handler of the connected event returns exactly when the flush
    frees no queued topic twice, and then it has sent every entry, emptied
    the queue and called the connected callback, if registered. *)
Lemma mqtt_status_cb_connected_run (w : world) :
  mqtt_status_cb ESP_MQTT_STATUS_CONNECTED w
  = if flush_defined (globals w)
    then
      Some (tt,
          let g := globals w in
          {| globals := set_publications_list [] (set_is_connected true g);
             calls := calls w
                      ++ map (flush_call (prefix g)) (publications_list g)
                      ++ notify_connected g;
             answers := answers w;
             asked := (asked w + List.length (publications_list g))%nat |})
    else None.
Proof.
  unfold mqtt_status_cb. unfold bind at 1. unfold modify at 1.
  unfold bind at 1. unfold get at 1. unfold bind at 1.
  rewrite mqtt_publications_publish_connected by reflexivity.
  unfold bind at 1. unfold get at 1. unfold bind at 1.
  cbn [globals answered called publications_list prefix set_is_connected].
  unfold flush_defined.
  destruct (mqtt_add_prefix_frees (prefix (globals w))) eqn:Hf; cbn [negb orb].
  - destruct (publications_list (globals w)) as [|e l] eqn:Hq.
    + cbn. unfold bind, get, modify, notify_connected. cbn.
      destruct (negb (is_null (on_connected_cb (globals w)))).
      * unfold emit. cbn. do 2 f_equal; world_eq.
      * unfold ret. do 2 f_equal; world_eq.
    + reflexivity.
  - rewrite mqtt_publications_free_run.
    unfold bind, get, notify_connected. cbn.
    destruct (negb (is_null (on_connected_cb (globals w)))).
    + unfold emit. cbn. do 2 f_equal. world_eq.
    + unfold ret. do 2 f_equal. world_eq.
Qed.

Lemma mqtt_status_cb_disconnected_run (w : world) :
  mqtt_status_cb ESP_MQTT_STATUS_DISCONNECTED w
  = Some (tt,
          let g := globals w in
          {| globals := set_subscription_list [] (set_is_connected false g);
             calls := calls w
                      ++ flat_map release_calls (subscription_list g)
                      ++ notify_disconnected g;
             answers := answers w;
             asked := asked w |}).
Proof.
  unfold mqtt_status_cb. unfold bind at 1. unfold modify at 1.
  unfold bind at 1. unfold get at 1. unfold bind at 1.
  rewrite mqtt_subscriptions_free_run.
  unfold bind, get, notify_disconnected. cbn.
  destruct (negb (is_null (on_disconnected_cb (globals w)))).
  - unfold emit. cbn. do 2 f_equal. world_eq.
  - unfold ret. do 2 f_equal. world_eq.
Qed.

End StatusEvents.

(** ** The session machine *)

Section Machine.

(** The retry loop only talks to the transport. *)
Lemma subscribe_loop_globals (topic : string) (qos : Z) (fuel : nat) :
  forall (retries : Z) (w : world) (retries' : Z) (w' : world),
    while_loop fuel
      (fun retries =>
         ok <- esp_mqtt_subscribe topic qos ;;
         ret (negb (Bool.eqb ok true) && (retries <? 3)))
      (fun retries => ret ((retries + 1) mod 256))
      retries w = Some (retries', w') ->
    globals w' = globals w.
Proof.
  induction fuel as [|fuel IH]; intros retries w retries' w' H.
  - discriminate.
  - cbn [while_loop] in H. unfold esp_mqtt_subscribe in H.
    unfold bind at 1 2 in H. unfold ask at 1 in H.
    unfold ret at 1 in H.
    destruct (negb (Bool.eqb (answers w (asked w)) true) && (retries <? 3)).
    + unfold bind at 1 in H. unfold ret at 1 in H. apply IH in H. exact H.
    + unfold ret in H. now inversion H.
Qed.

(** [mqtt_subscribe] never touches the flag or the queue, and leaves the
    registry alone while disconnected. *)
Lemma mqtt_subscribe_frame (fuel : nat) (topic_in : string) (qos : Z)
  (cb ctx free_cb : ptr) (w : world) (r : Z) (w' : world) :
  mqtt_subscribe fuel topic_in qos cb ctx free_cb w = Some (r, w') ->
  is_connected (globals w') = is_connected (globals w) /\
  publications_list (globals w') = publications_list (globals w) /\
  (is_connected (globals w) = false ->
   subscription_list (globals w') = subscription_list (globals w)).
Proof.
  unfold mqtt_subscribe. unfold bind at 1. unfold get at 1.
  destruct (is_connected (globals w)) eqn:Hc; cbn [negb].
  - unfold bind at 1.
    destruct (while_loop _ _ _ _ w) as [[retries w0]|] eqn:Hloop;
      [|discriminate].
    apply subscribe_loop_globals in Hloop.
    destruct (retries =? 3); monad_unfold; intros H; inversion H; subst;
      cbn; rewrite Hloop, ?Hc; repeat split; congruence.
  - unfold ret. intros H. inversion H. subst. now rewrite Hc.
Qed.

Lemma mqtt_subscribe_globals (fuel : nat) (topic_in : string) (qos : Z)
  (cb ctx free_cb : ptr) (w : world) (r : Z) (w' : world) :
  mqtt_subscribe fuel topic_in qos cb ctx free_cb w = Some (r, w') ->
  (r = -1 /\ globals w' = globals w) \/
  (r = 0 /\ is_connected (globals w) = true /\
   globals w'
   = set_subscription_list
       (subscription_list (globals w)
        ++ [stored_record (globals w) topic_in cb ctx free_cb]) (globals w)).
Proof.
  unfold mqtt_subscribe. unfold bind at 1. unfold get at 1.
  destruct (is_connected (globals w)) eqn:Hc; cbn [negb].
  - unfold bind at 1.
    destruct (while_loop _ _ _ _ w) as [[retries w0]|] eqn:Hloop;
      [|discriminate].
    apply subscribe_loop_globals in Hloop.
    destruct (retries =? 3); monad_unfold; intros H; inversion H; subst;
      cbn; rewrite Hloop; [left | right]; auto.
  - unfold ret. intros H. inversion H. subst. left. auto.
Qed.

Lemma add_prefix_frees_remove (p : option string) (t : string) :
  mqtt_add_prefix_frees p = false -> mqtt_remove_prefix_frees p t = false.
Proof. now destruct p as [[|c p]|]. Qed.

(** With fuel for four rounds an action returns, unless it is a connected
    event that frees a queued topic twice or a message whose topic is
    stripped. *)
Lemma exec_returns (fuel : nat) (a : action) (w : world) :
  (4 <= fuel)%nat ->
  exec_defined a (globals w) = true ->
  exists w', exec fuel a w = Some (tt, w').
Proof.
  intros Hfuel Hdef.
  destruct a; cbn [exec]; try (eexists; reflexivity).
  - destruct (mqtt_subscribe_returns topic qos cb ctx free_cb fuel w Hfuel)
      as (r & w' & H).
    unfold bind. rewrite H. eexists; reflexivity.
  - unfold bind. rewrite mqtt_unsubscribe_run. cbv zeta.
    destruct (is_connected (globals w)); eexists; reflexivity.
  - unfold bind. rewrite mqtt_publish_run.
    destruct (is_connected (globals w)); eexists; reflexivity.
  - destruct status.
    + rewrite mqtt_status_cb_disconnected_run. eexists; reflexivity.
    + rewrite mqtt_status_cb_connected_run. cbn [exec_defined] in Hdef.
      rewrite Hdef. eexists; reflexivity.
  - cbn [exec_defined] in Hdef. apply negb_true_iff in Hdef.
    rewrite (mqtt_message_cb_run topic payload len w Hdef).
    eexists; reflexivity.
Qed.

(** An action that configures no prefix leaves none configured. *)
Lemma exec_keeps_no_prefix (fuel : nat) (a : action) (w w' : world) :
  keeps_no_prefix a = true ->
  exec fuel a w = Some (tt, w') ->
  mqtt_add_prefix_frees (prefix (globals w)) = false ->
  mqtt_add_prefix_frees (prefix (globals w')) = false.
Proof.
  destruct a; cbn [exec keeps_no_prefix];
    try (intros _ H; inversion H; subst; cbn; solve [auto]).
  - intros Hk H; inversion H; subst; cbn. intros _.
    now apply negb_true_iff in Hk.
  - intros _. unfold bind.
    destruct (mqtt_subscribe _ _ _ _ _ _ w) as [[r w0]|] eqn:Hs;
      [|discriminate].
    apply mqtt_subscribe_globals in Hs.
    unfold ret. intros H; inversion H; subst.
    destruct Hs as [(_ & ->) | (_ & _ & ->)]; auto.
  - intros _. unfold bind. rewrite mqtt_unsubscribe_run. cbv zeta.
    destruct (is_connected (globals w));
      unfold ret; intros H; inversion H; subst; cbn; auto.
  - intros _. unfold bind. rewrite mqtt_publish_run.
    destruct (is_connected (globals w));
      unfold ret; intros H; inversion H; subst; cbn; auto.
  - intros _. destruct status.
    + rewrite mqtt_status_cb_disconnected_run.
      intros H; inversion H; subst; cbn. auto.
    + rewrite mqtt_status_cb_connected_run.
      destruct (flush_defined _); [|discriminate].
      intros H; inversion H; subst; cbn. auto.
  - intros _ H. apply mqtt_message_cb_globals in H. now rewrite H.
Qed.

(** Every sequence of actions that configures no prefix runs to
    completion. *)
Lemma run_returns_without_prefix (fuel : nat) (acts : list action) :
  (4 <= fuel)%nat ->
  forallb keeps_no_prefix acts = true ->
  forall w,
    mqtt_add_prefix_frees (prefix (globals w)) = false ->
    exists w', run fuel acts w = Some (tt, w').
Proof.
  intros Hfuel. induction acts as [|a acts IH]; intros Hk w Hw.
  - eexists; reflexivity.
  - cbn [forallb] in Hk. apply andb_true_iff in Hk. destruct Hk as [Ha Hk].
    cbn [run]. unfold bind.
    destruct (exec_returns fuel a w Hfuel) as (w1 & Hw1).
    { destruct a; try reflexivity; cbn [exec_defined].
      - destruct status; [reflexivity|].
        unfold flush_defined. now rewrite Hw.
      - now rewrite (add_prefix_frees_remove _ _ Hw). }
    rewrite Hw1. apply (IH Hk).
    now apply (exec_keeps_no_prefix fuel a w w1).
Qed.

Lemma run_app (fuel : nat) (acts1 acts2 : list action) :
  forall w,
    run fuel (acts1 ++ acts2) w
    = match run fuel acts1 w with
      | Some (_, w1) => run fuel acts2 w1
      | None => None
      end.
Proof.
  induction acts1 as [|a acts1 IH]; intros w.
  - reflexivity.
  - cbn [app run]. unfold bind.
    destruct (exec fuel a w) as [[[] w1]|]; [apply IH | reflexivity].
Qed.

(** An invariant of the actions is an invariant of the runs. *)
Lemma run_invariant (fuel : nat) (I : world -> Prop)
  (allowed : action -> Prop) :
  (forall a w w', allowed a -> exec fuel a w = Some (tt, w') -> I w -> I w') ->
  forall acts w w',
    Forall allowed acts -> run fuel acts w = Some (tt, w') -> I w -> I w'.
Proof.
  intros Hstep. induction acts as [|a acts IH]; intros w w' Hall Hrun Hw.
  - cbn in Hrun. unfold ret in Hrun. now inversion Hrun; subst.
  - cbn [run] in Hrun. unfold bind in Hrun.
    destruct (exec fuel a w) as [[[] w1]|] eqn:Hexec; [|discriminate].
    inversion Hall; subst.
    apply (IH w1 w'); trivial. now apply (Hstep a w w1).
Qed.

Lemma exec_queue_invariant (fuel : nat) (a : action) (w w' : world) :
  exec fuel a w = Some (tt, w') -> queue_invariant w -> queue_invariant w'.
Proof.
  unfold queue_invariant.
  destruct a; cbn [exec];
    try (intros H; inversion H; subst; cbn; solve [auto | discriminate]).
  - unfold bind.
    destruct (mqtt_subscribe _ _ _ _ _ _ w) as [[r w0]|] eqn:Hs;
      [|discriminate].
    apply mqtt_subscribe_frame in Hs. destruct Hs as (Hc & Hq & _).
    unfold ret. intros H; inversion H; subst. rewrite Hc, Hq. auto.
  - unfold bind. rewrite mqtt_unsubscribe_run. cbv zeta.
    destruct (is_connected (globals w)) eqn:Hc;
      unfold ret; intros H; inversion H; subst; cbn; rewrite Hc; auto.
  - unfold bind. rewrite mqtt_publish_run.
    destruct (is_connected (globals w)) eqn:Hc;
      unfold ret; intros H; inversion H; subst; cbn; rewrite Hc;
      solve [auto | discriminate].
  - destruct status.
    + rewrite mqtt_status_cb_disconnected_run.
      intros H; inversion H; subst; cbn. discriminate.
    + rewrite mqtt_status_cb_connected_run.
      destruct (flush_defined _); [|discriminate].
      intros H; inversion H; subst; cbn. auto.
  - intros H. apply mqtt_message_cb_globals in H. rewrite H. auto.
Qed.

(** Every action but [mqtt_disconnect] keeps the registry empty while the
    flag is false. *)
Lemma exec_registry_invariant (fuel : nat) (a : action) (w w' : world) :
  a <> Disconnect ->
  exec fuel a w = Some (tt, w') ->
  registry_invariant w -> registry_invariant w'.
Proof.
  unfold registry_invariant. intros Ha.
  destruct a; cbn [exec]; try congruence;
    try (intros H; inversion H; subst; cbn; solve [auto | discriminate]).
  - unfold bind.
    destruct (mqtt_subscribe _ _ _ _ _ _ w) as [[r w0]|] eqn:Hs;
      [|discriminate].
    apply mqtt_subscribe_frame in Hs. destruct Hs as (Hc & _ & Hl).
    unfold ret. intros H; inversion H; subst. rewrite Hc.
    intros Hinv Hd. rewrite (Hl Hd). auto.
  - unfold bind. rewrite mqtt_unsubscribe_run. cbv zeta.
    destruct (is_connected (globals w)) eqn:Hc;
      unfold ret; intros H; inversion H; subst; cbn; rewrite Hc;
      intros Hinv Hd; try discriminate.
    now rewrite (Hinv Hd).
  - unfold bind. rewrite mqtt_publish_run.
    destruct (is_connected (globals w)) eqn:Hc;
      unfold ret; intros H; inversion H; subst; cbn; rewrite Hc;
      solve [auto | discriminate].
  - destruct status.
    + rewrite mqtt_status_cb_disconnected_run.
      intros H; inversion H; subst; cbn. auto.
    + rewrite mqtt_status_cb_connected_run.
      destruct (flush_defined _); [|discriminate].
      intros H; inversion H; subst; cbn. discriminate.
  - intros H. apply mqtt_message_cb_globals in H. rewrite H. auto.
Qed.

(** Along runs in which [mqtt_disconnect] is never called, the registry
    is empty whenever the flag is false. *)
Lemma registry_empty_without_disconnect (fuel : nat) (transport : nat -> bool)
  (acts : list action) (w : world) :
  Forall (fun a => a <> Disconnect) acts ->
  run fuel acts (boot transport) = Some (tt, w) ->
  registry_invariant w.
Proof.
  intros Hall Hrun.
  apply (run_invariant fuel registry_invariant (fun a => a <> Disconnect))
    with (acts := acts) (w := boot transport); trivial.
  - intros a w0 w1. apply exec_registry_invariant.
  - intros _. reflexivity.
Qed.

End Machine.

(** ** Publications made while disconnected, and their flush *)

Section Flush.

(** Publishing while disconnected stacks the entries: the last one
    published is the head of the queue. *)
Lemma run_publishes_disconnected (fuel : nat) (reqs : list publish_args) :
  forall w,
    is_connected (globals w) = false ->
    run fuel (map publish_action reqs) w
    = Some (tt, updated
                  (set_publications_list
                     (rev (map (entry_of (globals w)) reqs)
                      ++ publications_list (globals w))) w).
Proof.
  induction reqs as [|a reqs IH]; intros w Hc.
  - cbn. unfold ret. f_equal. f_equal. destruct w as [[] ? ? ?]. reflexivity.
  - cbn [map run exec publish_action]. unfold bind at 1 2.
    rewrite mqtt_publish_run, Hc. unfold ret at 1.
    rewrite IH by exact Hc. do 2 f_equal.
    unfold updated. cbn [globals calls answers asked]. f_equal.
    change (set_publications_list ?l1 (set_publications_list ?l2 ?g))
      with (set_publications_list l1 g).
    f_equal. cbn [publications_list set_publications_list].
    change (entry_of {| prefix := prefix ?g; subscription_list := ?a1;
                        publications_list := ?a2; is_connected := ?a3;
                        on_connected_cb := ?a4; on_disconnected_cb := ?a5 |})
      with (entry_of g).
    cbn [map rev]. now rewrite <- app_assoc.
Qed.

(** With no prefix configured, the flush that follows sends the entries
    in the reverse of the order of the [mqtt_publish] calls. *)
Lemma flush_after_publishes (fuel : nat) (reqs : list publish_args)
  (w : world) :
  mqtt_add_prefix_frees (prefix (globals w)) = false ->
  is_connected (globals w) = false ->
  publications_list (globals w) = [] ->
  run fuel (map publish_action reqs ++ [Status ESP_MQTT_STATUS_CONNECTED]) w
  = Some (tt,
          let g := globals w in
          {| globals := set_publications_list [] (set_is_connected true g);
             calls := calls w
                      ++ map (flush_call (prefix g))
                           (rev (map (entry_of g) reqs))
                      ++ notify_connected g;
             answers := answers w;
             asked := (asked w + List.length reqs)%nat |}).
Proof.
  intros Hf Hc Hq.
  rewrite run_app. rewrite run_publishes_disconnected by exact Hc.
  cbn [run exec]. unfold bind. rewrite mqtt_status_cb_connected_run.
  unfold flush_defined. cbn [globals updated prefix set_publications_list].
  rewrite Hf. cbn [negb orb].
  unfold ret. cbn. rewrite Hq, app_nil_r.
  now rewrite length_rev, length_map.
Qed.

End Flush.

(** * The statements of the specification *)

Section Claims.

(** C1, at two publications made while disconnected with no prefix
    configured, ["a"] first and ["b"] second, followed by the connected
    event: the flush asks the transport to publish ["b"] first and ["a"]
    second, the reverse of the order in which they were queued, and the
    queue is empty afterwards. *)
Theorem flush_two_publications :
  run 4 [Publish "a" [x01] 1 0 0; Publish "b" [x02] 1 0 0;
         Status ESP_MQTT_STATUS_CONNECTED] (boot (fun _ => true))
  = Some (tt,
          {| globals := set_is_connected true initial_state;
             calls := [Esp_mqtt_publish "b" [x02] 1 0 0;
                       Esp_mqtt_publish "a" [x01] 1 0 0];
             answers := fun _ => true;
             asked := 2 |}).
Proof. reflexivity. Qed.

(** With a prefix configured, the flush hands the topic of a queued
    publication to the transport with the prefix on it twice, leaves the
    queued topic freed, and the handler of the connected event, which
    frees it again, does not return. *)
Lemma flush_prefixed_publication :
  let acts := [Connect "broker" 1883 "id" "user" "pw" (Some "home/"%string);
               Publish "t" [x01; x02; x03] 3 0 0] in
  let e := {| pub_topic := "home/t"; pub_payload := [x01; x02; x03];
              pub_len := 3; pub_qos := 0; pub_retained := 0 |} in
  let w := {| globals := set_publications_list [e]
                           (set_prefix (Some "home/"%string) initial_state);
              calls := [Esp_mqtt_start "broker" 1883 "id" "user" "pw"];
              answers := fun _ => true;
              asked := 0 |} in
  run 4 acts (boot (fun _ => true)) = Some (tt, w) /\
  mqtt_publications_publish [e] (with_flag true w)
  = Some ([Freed],
          {| globals := set_is_connected true (globals w);
             calls := [Esp_mqtt_start "broker" 1883 "id" "user" "pw";
                       Esp_mqtt_publish "home/home/t" [x01; x02; x03] 3 0 0];
             answers := fun _ => true;
             asked := 1 |}) /\
  run 4 (acts ++ [Status ESP_MQTT_STATUS_CONNECTED]) (boot (fun _ => true))
  = None.
Proof. cbv zeta. repeat split. Qed.

(** C3, at prefix ["home/"], a registry with two records for ["lamp"]
    around one for ["fan"], and a message on ["home/lamp"]: the two
    matching callbacks (11, then 13) are called, in registry order, and
    the one for ["fan"] is not; the topic they are passed is
    ["home/lamp"], with the prefix still on it. *)
Theorem dispatch_home_lamp :
  run 4 [Connect "broker" 1883 "id" "user" "pw" (Some "home/"%string);
         Status ESP_MQTT_STATUS_CONNECTED;
         Subscribe "lamp" 0 11 21 0;
         Subscribe "fan" 0 12 22 0;
         Subscribe "lamp" 0 13 23 0;
         Message "home/lamp" [x01] 1] (boot (fun _ => true))
  = Some (tt,
          {| globals :=
               {| prefix := Some "home/"%string;
                  subscription_list :=
                    [ {| sub_topic := "home/lamp"; sub_cb := 11;
                         sub_ctx := 21; sub_free_cb := 0 |};
                      {| sub_topic := "home/fan"; sub_cb := 12;
                         sub_ctx := 22; sub_free_cb := 0 |};
                      {| sub_topic := "home/lamp"; sub_cb := 13;
                         sub_ctx := 23; sub_free_cb := 0 |} ];
                  publications_list := [];
                  is_connected := true;
                  on_connected_cb := NULL;
                  on_disconnected_cb := NULL |};
             calls := [Esp_mqtt_start "broker" 1883 "id" "user" "pw";
                       Esp_mqtt_subscribe "home/lamp" 0;
                       Esp_mqtt_subscribe "home/fan" 0;
                       Esp_mqtt_subscribe "home/lamp" 0;
                       Call_message_cb 11 "home/lamp" [x01] 1 21;
                       Call_message_cb 13 "home/lamp" [x01] 1 23];
             answers := fun _ => true;
             asked := 3 |}).
Proof. reflexivity. Qed.

(** C4, at a connected event, a successful subscription and a call of
    [mqtt_disconnect]: when [mqtt_disconnect] has returned the flag is
    false and the registry still holds the record. *)
Theorem registry_after_mqtt_disconnect :
  run 4 [Status ESP_MQTT_STATUS_CONNECTED;
         Subscribe "lamp" 0 11 21 31;
         Disconnect] (boot (fun _ => true))
  = Some (tt,
          {| globals :=
               {| prefix := None;
                  subscription_list :=
                    [ {| sub_topic := "lamp"; sub_cb := 11; sub_ctx := 21;
                         sub_free_cb := 31 |} ];
                  publications_list := [];
                  is_connected := false;
                  on_connected_cb := NULL;
                  on_disconnected_cb := NULL |};
             calls := [Esp_mqtt_subscribe "lamp" 0; Esp_mqtt_stop];
             answers := fun _ => true;
             asked := 1 |}).
Proof. reflexivity. Qed.

(** After the handler of the disconnected event the registry is empty,
    in every state. *)
Lemma registry_empty_after_disconnected_event (w : world) :
  exists w',
    mqtt_status_cb ESP_MQTT_STATUS_DISCONNECTED w = Some (tt, w') /\
    is_connected (globals w') = false /\
    subscription_list (globals w') = [].
Proof.
  rewrite mqtt_status_cb_disconnected_run. eexists. split; [reflexivity|].
  split; reflexivity.
Qed.

(** C5, connected, at a transport that rejects the first three attempts
    and accepts the fourth: [mqtt_subscribe] makes four transport calls,
    the fourth of which the transport accepts, and returns -1 without
    storing a record. *)
Theorem subscribe_fourth_attempt_accepted :
  (mqtt_status_cb ESP_MQTT_STATUS_CONNECTED ;;;
   mqtt_subscribe 4 "lamp" 0 11 21 31) (boot (fun n => (3 <=? n)%nat))
  = Some (-1,
          {| globals := set_is_connected true initial_state;
             calls := [Esp_mqtt_subscribe "lamp" 0;
                       Esp_mqtt_subscribe "lamp" 0;
                       Esp_mqtt_subscribe "lamp" 0;
                       Esp_mqtt_subscribe "lamp" 0];
             answers := fun n => (3 <=? n)%nat;
             asked := 4 |}).
Proof. reflexivity. Qed.

(** C6: while the connectivity flag is false, [mqtt_subscribe] returns
    -1 and changes nothing: no record is stored and the transport is not
    called, whatever the topic, qos, callback, context and destructor. *)
Theorem mqtt_subscribe_disconnected (fuel : nat) (topic_in : string) (qos : Z)
  (cb ctx free_cb : ptr) (w : world) :
  is_connected (globals w) = false ->
  mqtt_subscribe fuel topic_in qos cb ctx free_cb w = Some (-1, w).
Proof.
  intros Hc. unfold mqtt_subscribe. monad_unfold. now rewrite Hc.
Qed.

Lemma mqtt_subscribe_disconnected_witness :
  is_connected (globals (boot (fun _ => true))) = false /\
  mqtt_subscribe 4 "home/lamp" 1 11 21 31 (boot (fun _ => true))
  = Some (-1, boot (fun _ => true)).
Proof.
  split; [reflexivity|].
  apply mqtt_subscribe_disconnected. reflexivity.
Defined.

(** C7: in every state reached from the initial one by public operations
    and transport events, each run to completion, if the connectivity flag
    is true then the queue of pending publications is empty.  Whenever the
    handler of the connected event returns, it leaves the flag true and
    the queue empty, and it returns whenever the flush frees no queued
    topic twice; and in such a reachable connected state [mqtt_publish]
    makes one transport call and leaves the globals, the queue among them,
    as they were. *)
Theorem connected_queue_empty (fuel : nat) (transport : nat -> bool)
  (acts : list action) (w : world) :
  run fuel acts (boot transport) = Some (tt, w) ->
  is_connected (globals w) = true ->
  publications_list (globals w) = [] /\
  (forall w0 w1,
      mqtt_status_cb ESP_MQTT_STATUS_CONNECTED w0 = Some (tt, w1) ->
      is_connected (globals w1) = true /\
      publications_list (globals w1) = []) /\
  (forall w0,
      flush_defined (globals w0) = true ->
      exists w1, mqtt_status_cb ESP_MQTT_STATUS_CONNECTED w0 = Some (tt, w1)) /\
  (forall topic_in payload len qos retained,
      mqtt_publish topic_in payload len qos retained w
      = Some (if answers w (asked w) then 0 else 1,
              {| globals := globals w;
                 calls := calls w
                          ++ [Esp_mqtt_publish
                                (namespaced (prefix (globals w)) topic_in)
                                payload len qos retained];
                 answers := answers w;
                 asked := S (asked w) |})).
Proof.
  intros Hrun Hc. split; [|split; [|split]].
  - apply (run_invariant fuel queue_invariant (fun _ => True))
      with (acts := acts) (w := boot transport); trivial.
    + intros a w0 w1 _. apply exec_queue_invariant.
    + now apply Forall_forall.
    + intros Hb. discriminate Hb.
  - intros w0 w1. rewrite mqtt_status_cb_connected_run.
    destruct (flush_defined _); [|discriminate].
    intros H; inversion H; subst. split; reflexivity.
  - intros w0 Hd. rewrite mqtt_status_cb_connected_run, Hd.
    eexists; reflexivity.
  - intros. rewrite mqtt_publish_run, Hc, add_prefix_namespaced.
    do 2 f_equal. unfold answered, called. cbn. f_equal. lia.
Qed.

Lemma connected_queue_empty_witness :
  let acts := [Publish "t" [x01; x02; x03] 3 0 0;
               Status ESP_MQTT_STATUS_CONNECTED;
               Publish "u" [x04] 1 0 0] in
  let w := {| globals := set_is_connected true initial_state;
              calls := [Esp_mqtt_publish "t" [x01; x02; x03] 3 0 0;
                        Esp_mqtt_publish "u" [x04] 1 0 0];
              answers := fun _ => true;
              asked := 2 |} in
  run 4 acts (boot (fun _ => true)) = Some (tt, w) /\
  is_connected (globals w) = true /\
  publications_list (globals w) = [].
Proof.
  cbv zeta. split; [reflexivity|]. split; [reflexivity|].
  apply (connected_queue_empty 4 (fun _ => true)
           [Publish "t" [x01; x02; x03] 3 0 0;
            Status ESP_MQTT_STATUS_CONNECTED;
            Publish "u" [x04] 1 0 0]).
  - reflexivity.
  - reflexivity.
Defined.



(** The whole of [mqtt_unsubscribe]: it namespaces the topic and removes
    from the registry the first record whose topic starts with the
    namespaced string, releasing its context (nothing changes if there is
    none), whatever the flag.  If the flag is false it returns 0 without
    calling the transport; if it is true it asks the transport to
    unsubscribe from the namespaced topic and returns the transport's
    [bool] as it is: 1 when the transport succeeded, 0 when it failed. *)
Lemma mqtt_unsubscribe_contract (topic_in : string) (w : world) :
  let g := globals w in
  let topic := namespaced (prefix g) topic_in in
  let released := release_found (first_prefixed topic (subscription_list g)) in
  let g' :=
    set_subscription_list (remove_first_prefixed topic (subscription_list g))
      g in
  mqtt_unsubscribe topic_in w
  = Some
      (if is_connected g
       then (Z.b2z (answers w (asked w)),
             {| globals := g';
                calls := calls w ++ released ++ [Esp_mqtt_unsubscribe topic];
                answers := answers w;
                asked := S (asked w) |})
       else (0,
             {| globals := g';
                calls := calls w ++ released;
                answers := answers w;
                asked := asked w |}))
  /\
  ((Forall (fun s => topic_starts_with topic s = false) (subscription_list g)
    /\ released = []
    /\ subscription_list g' = subscription_list g)
   \/
   (exists l1 s l2,
       subscription_list g = l1 ++ s :: l2 /\
       Forall (fun x => topic_starts_with topic x = false) l1 /\
       String.prefix topic (sub_topic s) = true /\
       released = release_calls s /\
       subscription_list g' = l1 ++ l2)).
Proof.
  cbv zeta. rewrite <- add_prefix_namespaced. split.
  - rewrite mqtt_unsubscribe_run. cbv zeta.
    destruct (is_connected (globals w)); do 2 f_equal.
    + unfold answered, called, updated. cbn. f_equal;
        [now rewrite <- app_assoc | lia].
  - destruct (remove_first_prefixed_spec
                (mqtt_add_prefix (prefix (globals w)) topic_in)
                (subscription_list (globals w)))
      as [(Hn & Hall & Hrm) | (l1 & s & l2 & Hl & Hall & Hs & Hf & Hrm)].
    + left. rewrite Hn. cbn. auto.
    + right. exists l1, s, l2. rewrite Hf. cbn. auto.
Qed.

(** C9, connected with prefix ["home/"] and a record for ["lamp"]:
    [mqtt_unsubscribe("lamp")] removes the record, releases its context
    and asks the transport to unsubscribe from ["home/lamp"]; when the
    transport fails it returns 0, the value it also returns for success
    while disconnected, and when the transport succeeds it returns 1. *)
Theorem unsubscribe_result_inverted :
  (run 4 [Connect "broker" 1883 "id" "user" "pw" (Some "home/"%string);
          Status ESP_MQTT_STATUS_CONNECTED;
          Subscribe "lamp" 0 11 21 31] ;;;
   mqtt_unsubscribe "lamp") (boot (fun n => (n =? 0)%nat))
  = Some (0,
          {| globals := set_prefix (Some "home/"%string)
                          (set_is_connected true initial_state);
             calls := [Esp_mqtt_start "broker" 1883 "id" "user" "pw";
                       Esp_mqtt_subscribe "home/lamp" 0;
                       Call_free_cb 31 21;
                       Esp_mqtt_unsubscribe "home/lamp"];
             answers := fun n => (n =? 0)%nat;
             asked := 2 |})
  /\
  (run 4 [Connect "broker" 1883 "id" "user" "pw" (Some "home/"%string);
          Status ESP_MQTT_STATUS_CONNECTED;
          Subscribe "lamp" 0 11 21 31] ;;;
   mqtt_unsubscribe "lamp") (boot (fun _ => true))
  = Some (1,
          {| globals := set_prefix (Some "home/"%string)
                          (set_is_connected true initial_state);
             calls := [Esp_mqtt_start "broker" 1883 "id" "user" "pw";
                       Esp_mqtt_subscribe "home/lamp" 0;
                       Call_free_cb 31 21;
                       Esp_mqtt_unsubscribe "home/lamp"];
             answers := fun _ => true;
             asked := 2 |}).
Proof. split; reflexivity. Qed.

Lemma flush_calls_defined (g : mqtt_state) :
  flush_defined g = true ->
  map (flush_call (prefix g)) (publications_list g)
  = map sent (publications_list g).
Proof.
  unfold flush_defined. intros H. apply orb_true_iff in H.
  destruct H as [H|H].
  - apply flush_call_no_free. now apply negb_true_iff in H.
  - now destruct (publications_list g).
Qed.



End Claims.

(** * Further properties of [mqtt.c] *)

(** ** More on the topic namespacer *)

Section NamespacerFacts.

Lemma append_cancel_l (p s1 s2 : string) :
  (p ++ s1)%string = (p ++ s2)%string -> s1 = s2.
Proof.
  induction p as [|c p IH]; cbn; intros H; [exact H|].
  apply IH. now inversion H.
Qed.

Lemma prefix_same_length (p : string) :
  forall q s,
    String.prefix p (q ++ s) = true -> String.length q = String.length p ->
    q = p.
Proof.
  induction p as [|c p IH]; intros [|d q] s Hp Hl; cbn in Hl; try lia.
  - reflexivity.
  - cbn [String.append] in Hp. rewrite prefix_cons in Hp.
    apply andb_true_iff in Hp. destruct Hp as [Hcd Hp].
    apply Ascii.eqb_eq in Hcd. subst d. f_equal.
    apply (IH q s Hp). lia.
Qed.

Lemma advance_append (q s : string) :
  advance (String.length q) (q ++ s) = s.
Proof. induction q as [|c q IH]; cbn; [now destruct s | exact IH]. Qed.

(** X1: namespacing never merges two topics.  Whatever the prefix (unset,
    empty or not), two topics that [mqtt_add_prefix] maps to the same
    string are the same topic. *)
Theorem mqtt_add_prefix_injective (p : option string) (s1 s2 : string) :
  mqtt_add_prefix p s1 = mqtt_add_prefix p s2 -> s1 = s2.
Proof.
  destruct p as [[|c p]|]; cbn [mqtt_add_prefix]; trivial.
  apply append_cancel_l.
Qed.

Lemma mqtt_add_prefix_injective_witness :
  mqtt_add_prefix (Some "home/"%string) "lamp"
  = mqtt_add_prefix (Some "home/"%string) "lamp" /\
  "lamp"%string = "lamp"%string.
Proof.
  split; [reflexivity|].
  apply (mqtt_add_prefix_injective (Some "home/"%string)). reflexivity.
Defined.

(** X2: [mqtt_remove_prefix] strips when [memcmp] finds a difference.  A
    topic that begins with some other string of the prefix's length loses
    that string: with prefix ["home/"], ["work/lamp"] becomes ["lamp"]. *)
Theorem mqtt_remove_prefix_strips_other (p q s : string) :
  String.length q = String.length p ->
  q <> p ->
  mqtt_remove_prefix (Some p) (q ++ s) = s.
Proof.
  intros Hl Hne.
  assert (Hp : String.prefix p (q ++ s) = false).
  { destruct (String.prefix p (q ++ s)) eqn:E; [|reflexivity].
    exfalso. apply Hne. now apply (prefix_same_length p q s). }
  rewrite (remove_prefix_of_other p (q ++ s) Hp).
  unfold strlen. rewrite <- Hl. apply advance_append.
Qed.

Lemma mqtt_remove_prefix_strips_other_witness :
  mqtt_remove_prefix (Some "home/"%string) ("work/" ++ "lamp") = "lamp"%string.
Proof.
  apply mqtt_remove_prefix_strips_other.
  - reflexivity.
  - discriminate.
Defined.

End NamespacerFacts.

(** ** More on message dispatch *)

Section DispatchFacts.

Lemma remove_prefix_frees_started (p : option string) (t : string) :
  match p with
  | Some q => String.prefix q t = true
  | None => True
  end ->
  mqtt_remove_prefix_frees p t = false.
Proof.
  destruct p as [[|c q]|]; cbn [mqtt_remove_prefix_frees]; trivial.
  intros H. now rewrite memcmp_prefix, H.
Qed.

Lemma remove_prefix_frees_added (p : option string) (t : string) :
  mqtt_remove_prefix_frees p (mqtt_add_prefix p t) = false.
Proof.
  destruct p as [[|c q]|]; try reflexivity.
  apply (remove_prefix_frees_prefixed (String c q)).
Qed.

(** X3: for a message whose topic starts with the configured prefix, or
    with no prefix configured, [mqtt_message_cb] calls, in registry order,
    the callback of each record whose topic is exactly the message's
    topic, with the record's own context, the payload, the length and the
    message's topic as it arrived, the prefix still on it; it calls
    nothing else and changes no global. *)
Theorem mqtt_message_cb_calls_exact_matches (topic_in : string)
  (payload : list byte) (len : N) (w : world) :
  match prefix (globals w) with
  | Some p => String.prefix p topic_in = true
  | None => True
  end ->
  mqtt_message_cb topic_in payload len w
  = Some (tt,
          {| globals := globals w;
             calls :=
               calls w
               ++ map (fun s =>
                         Call_message_cb (sub_cb s) topic_in payload len
                           (sub_ctx s))
                    (filter (fun s => String.eqb (sub_topic s) topic_in)
                       (subscription_list (globals w)));
             answers := answers w;
             asked := asked w |}).
Proof.
  intros Hp. apply remove_prefix_frees_started in Hp.
  rewrite (mqtt_message_cb_run topic_in payload len w Hp).
  now rewrite (remove_prefix_no_strip _ _ Hp).
Qed.

Lemma mqtt_message_cb_calls_exact_matches_witness :
  let s1 := {| sub_topic := "home/lamp"; sub_cb := 11; sub_ctx := 21;
               sub_free_cb := 0 |} in
  let s2 := {| sub_topic := "home/lamps"; sub_cb := 12; sub_ctx := 22;
               sub_free_cb := 0 |} in
  let s3 := {| sub_topic := "home/lamp"; sub_cb := 13; sub_ctx := 23;
               sub_free_cb := 0 |} in
  let w := with_registry [s1; s2; s3]
             (updated (set_prefix (Some "home/"%string))
                (boot (fun _ => true))) in
  mqtt_message_cb "home/lamp" [x01] 1 w
  = Some (tt,
          {| globals := globals w;
             calls := [Call_message_cb 11 "home/lamp" [x01] 1 21;
                       Call_message_cb 13 "home/lamp" [x01] 1 23];
             answers := fun _ => true;
             asked := 0 |}).
Proof.
  cbv zeta.
  apply (mqtt_message_cb_calls_exact_matches "home/lamp" [x01] 1
           (with_registry
              [ {| sub_topic := "home/lamp"; sub_cb := 11; sub_ctx := 21;
                   sub_free_cb := 0 |};
                {| sub_topic := "home/lamps"; sub_cb := 12; sub_ctx := 22;
                   sub_free_cb := 0 |};
                {| sub_topic := "home/lamp"; sub_cb := 13; sub_ctx := 23;
                   sub_free_cb := 0 |} ]
              (updated (set_prefix (Some "home/"%string))
                 (boot (fun _ => true))))).
  reflexivity.
Defined.

(** X4: a message whose topic equals no record's topic is dropped: no
    callback is called and nothing changes. *)
Theorem mqtt_message_cb_no_match (topic_in : string) (payload : list byte)
  (len : N) (w : world) :
  Forall (fun s => sub_topic s <> topic_in) (subscription_list (globals w)) ->
  mqtt_message_cb topic_in payload len w = Some (tt, w).
Proof.
  intros Hall. unfold mqtt_message_cb, bind, get.
  now apply mqtt_message_cb_from_no_match.
Qed.

Lemma mqtt_message_cb_no_match_witness :
  let w := with_registry
             [ {| sub_topic := "lamps"; sub_cb := 11; sub_ctx := 21;
                  sub_free_cb := 0 |} ] (boot (fun _ => true)) in
  mqtt_message_cb "lamp" [x01] 1 w = Some (tt, w).
Proof.
  cbv zeta. apply mqtt_message_cb_no_match.
  constructor; [discriminate | constructor].
Defined.

End DispatchFacts.

(** ** More on subscriptions *)

Section SubscriptionFacts.

Lemma prefix_refl (s : string) : String.prefix s s = true.
Proof.
  induction s as [|c s IH]; [reflexivity|].
  rewrite prefix_cons, Ascii.eqb_refl. exact IH.
Qed.

Lemma mqtt_subscribe_first_accept (fuel : nat) (topic_in : string) (qos : Z)
  (cb ctx free_cb : ptr) (w : world) :
  is_connected (globals w) = true ->
  (4 <= fuel)%nat ->
  answers w (asked w) = true ->
  mqtt_subscribe fuel topic_in qos cb ctx free_cb w
  = Some (0,
          {| globals :=
               set_subscription_list
                 (subscription_list (globals w)
                  ++ [stored_record (globals w) topic_in cb ctx free_cb])
                 (globals w);
             calls := calls w ++ [subscribe_call (globals w) topic_in qos];
             answers := answers w;
             asked := S (asked w) |}).
Proof.
  intros Hc Hfuel Hacc.
  rewrite (mqtt_subscribe_connected topic_in qos cb ctx free_cb fuel w
             Hc Hfuel).
  cbn [rejections]. rewrite Hacc. cbv zeta. cbn [Nat.eqb].
  do 2 f_equal. unfold updated, answered, called. cbn. f_equal. lia.
Qed.

Lemma mqtt_subscribe_disconnected_run (fuel : nat) (topic_in : string)
  (qos : Z) (cb ctx free_cb : ptr) (w : world) :
  is_connected (globals w) = false ->
  mqtt_subscribe fuel topic_in qos cb ctx free_cb w = Some (-1, w).
Proof. intros Hc. unfold mqtt_subscribe. monad_unfold. now rewrite Hc. Qed.

Lemma remove_first_prefixed_last (t : string) (s : mqtt_subscription_t)
  (l : list mqtt_subscription_t) :
  Forall (fun x => topic_starts_with t x = false) l ->
  topic_starts_with t s = true ->
  remove_first_prefixed t (l ++ [s]) = l /\
  first_prefixed t (l ++ [s]) = Some s.
Proof.
  intros Hall Hs. unfold first_prefixed.
  induction Hall as [|x l Hx _ IH]; cbn [app remove_first_prefixed find].
  - now rewrite Hs.
  - rewrite Hx. destruct IH as [-> ->]. now split.
Qed.

Lemma set_subscription_list_same (g : mqtt_state) :
  set_subscription_list (subscription_list g) g = g.
Proof. now destruct g. Qed.

(** X5: a subscription is served at once.  While connected, with the
    transport accepting the first attempt, [mqtt_subscribe] followed by a
    message on the namespaced topic calls the callbacks of the records that
    already had that topic and then, last, the new callback with the new
    context. *)
Theorem subscribe_then_message (fuel : nat) (topic_in : string) (qos : Z)
  (cb ctx free_cb : ptr) (payload : list byte) (len : N) (w : world) :
  is_connected (globals w) = true ->
  (4 <= fuel)%nat ->
  answers w (asked w) = true ->
  let g := globals w in
  let topic := mqtt_add_prefix (prefix g) topic_in in
  let seen := mqtt_remove_prefix (prefix g) topic in
  (mqtt_subscribe fuel topic_in qos cb ctx free_cb ;;;
   mqtt_message_cb topic payload len) w
  = Some (tt,
          {| globals :=
               set_subscription_list
                 (subscription_list g
                  ++ [ {| sub_topic := topic; sub_cb := cb; sub_ctx := ctx;
                          sub_free_cb := free_cb |} ]) g;
             calls :=
               calls w
               ++ [Esp_mqtt_subscribe topic qos]
               ++ map (delivery seen payload len)
                    (filter (topic_is topic) (subscription_list g))
               ++ [Call_message_cb cb seen payload len ctx];
             answers := answers w;
             asked := S (asked w) |}).
Proof.
  intros Hc Hfuel Hacc. cbv zeta. unfold bind.
  rewrite (mqtt_subscribe_first_accept fuel topic_in qos cb ctx free_cb w
             Hc Hfuel Hacc).
  rewrite mqtt_message_cb_run by apply remove_prefix_frees_added.
  do 2 f_equal.
  unfold called, stored_record, subscribe_call. cbn. f_equal.
  rewrite filter_app, map_app. cbn [filter]. unfold topic_is at 2.
  cbn [sub_topic]. rewrite String.eqb_refl. cbn [map delivery sub_cb sub_ctx].
  now rewrite <- !app_assoc.
Qed.

Lemma subscribe_then_message_witness :
  let w := with_flag true (boot (fun _ => true)) in
  (mqtt_subscribe 4 "lamp" 0 11 21 31 ;;; mqtt_message_cb "lamp" [x01] 1) w
  = Some (tt,
          {| globals :=
               set_subscription_list
                 [ {| sub_topic := "lamp"; sub_cb := 11; sub_ctx := 21;
                      sub_free_cb := 31 |} ] (globals w);
             calls := [Esp_mqtt_subscribe "lamp" 0;
                       Call_message_cb 11 "lamp" [x01] 1 21];
             answers := fun _ => true;
             asked := 1 |}).
Proof.
  cbv zeta.
  apply (subscribe_then_message 4 "lamp" 0 11 21 31 [x01] 1
           (with_flag true (boot (fun _ => true)))).
  - reflexivity.
  - lia.
  - reflexivity.
Defined.

(** X6: subscribing and unsubscribing undo each other.  While connected,
    with the transport accepting the first attempt, and no record yet
    whose topic starts with the namespaced topic, [mqtt_subscribe]
    followed by [mqtt_unsubscribe] of the same topic leaves every global
    as it was; the new record's context is released, and the result is the
    transport's answer to the unsubscribe request. *)
Theorem subscribe_then_unsubscribe (fuel : nat) (topic_in : string) (qos : Z)
  (cb ctx free_cb : ptr) (w : world) :
  is_connected (globals w) = true ->
  (4 <= fuel)%nat ->
  answers w (asked w) = true ->
  let g := globals w in
  let topic := mqtt_add_prefix (prefix g) topic_in in
  Forall (fun x => String.prefix topic (sub_topic x) = false)
    (subscription_list g) ->
  (mqtt_subscribe fuel topic_in qos cb ctx free_cb ;;;
   mqtt_unsubscribe topic_in) w
  = Some (Z.b2z (answers w (S (asked w))),
          {| globals := g;
             calls :=
               calls w
               ++ [Esp_mqtt_subscribe topic qos]
               ++ (if negb (is_null ctx) && negb (is_null free_cb)
                   then [Call_free_cb free_cb ctx] else [])
               ++ [Esp_mqtt_unsubscribe topic];
             answers := answers w;
             asked := S (S (asked w)) |}).
Proof.
  intros Hc Hfuel Hacc. cbv zeta. intros Hall. unfold bind.
  rewrite (mqtt_subscribe_first_accept fuel topic_in qos cb ctx free_cb w
             Hc Hfuel Hacc).
  rewrite mqtt_unsubscribe_run. cbv zeta.
  cbn [globals calls answers asked prefix subscription_list is_connected
       set_subscription_list].
  rewrite Hc.
  destruct (remove_first_prefixed_last
              (mqtt_add_prefix (prefix (globals w)) topic_in)
              (stored_record (globals w) topic_in cb ctx free_cb)
              (subscription_list (globals w)) Hall) as [Hrm Hf].
  { unfold topic_starts_with, stored_record. cbn. apply prefix_refl. }
  rewrite Hrm, Hf. do 2 f_equal.
  unfold answered, called, updated, release_found, release_calls,
    stored_record, subscribe_call.
  cbn. f_equal.
  - transitivity
      (set_subscription_list (subscription_list (globals w)) (globals w));
      [reflexivity | apply set_subscription_list_same].
  - now rewrite <- !app_assoc.
  - lia.
Qed.

Lemma subscribe_then_unsubscribe_witness :
  let w := with_flag true (boot (fun _ => true)) in
  (mqtt_subscribe 4 "lamp" 0 11 21 31 ;;; mqtt_unsubscribe "lamp") w
  = Some (1,
          {| globals := globals w;
             calls := [Esp_mqtt_subscribe "lamp" 0; Call_free_cb 31 21;
                       Esp_mqtt_unsubscribe "lamp"];
             answers := fun _ => true;
             asked := 2 |}).
Proof.
  cbv zeta.
  apply (subscribe_then_unsubscribe 4 "lamp" 0 11 21 31
           (with_flag true (boot (fun _ => true)))).
  - reflexivity.
  - lia.
  - reflexivity.
  - constructor.
Defined.

End SubscriptionFacts.

(** ** What each operation may change *)

Section Frames.

Lemma release_found_no_transport (o : option mqtt_subscription_t) :
  forallb (fun e => negb (is_transport_call e)) (release_found o) = true.
Proof.
  destruct o as [s|]; [|reflexivity]. unfold release_found, release_calls.
  now destruct (negb (is_null (sub_ctx s)) && negb (is_null (sub_free_cb s))).
Qed.

Lemma remove_first_prefixed_incl (t : string) (l : list mqtt_subscription_t) :
  incl (remove_first_prefixed t l) l.
Proof.
  induction l as [|s l IH]; cbn [remove_first_prefixed].
  - apply incl_refl.
  - destruct (topic_starts_with t s).
    + apply incl_tl, incl_refl.
    + apply incl_cons; [now left | now apply incl_tl].
Qed.

(** X7: the outcome of [mqtt_subscribe], for every state and every
    transport.  With fuel for four rounds it returns; it asks the
    transport at most four times, always for the same namespaced topic and
    qos, not at all while disconnected and at least once while connected;
    and its result tells what happened to the registry: 0 exactly when the
    record was appended, -1 exactly when the globals are unchanged. *)
Theorem mqtt_subscribe_outcome (fuel : nat) (topic_in : string) (qos : Z)
  (cb ctx free_cb : ptr) (w : world) :
  (4 <= fuel)%nat ->
  let g := globals w in
  exists (r : Z) (w' : world) (n : nat),
    mqtt_subscribe fuel topic_in qos cb ctx free_cb w = Some (r, w') /\
    (n <= 4)%nat /\
    calls w' = calls w ++ repeat (subscribe_call g topic_in qos) n /\
    asked w' = (asked w + n)%nat /\
    (if is_connected g then (1 <= n)%nat else n = O) /\
    ((r = 0 /\
      globals w'
      = set_subscription_list
          (subscription_list g ++ [stored_record g topic_in cb ctx free_cb]) g)
     \/ (r = -1 /\ globals w' = g)).
Proof.
  intros Hfuel. cbv zeta. destruct (is_connected (globals w)) eqn:Hc.
  - rewrite (mqtt_subscribe_connected topic_in qos cb ctx free_cb fuel w
               Hc Hfuel).
    cbv zeta.
    pose proof (rejections_le (answers w) 3 (asked w)) as Hk.
    set (k := rejections (answers w) (asked w) 3) in *. clearbody k.
    destruct (k =? 3)%nat eqn:Ek.
    + eexists _, _, (S k). split; [reflexivity|].
      cbn. repeat split; try lia. right. auto.
    + eexists _, _, (S k). split; [reflexivity|].
      cbn. repeat split; try lia. left. auto.
  - rewrite (mqtt_subscribe_disconnected_run fuel topic_in qos cb ctx free_cb
               w Hc).
    exists (-1), w, O. cbn [repeat]. rewrite app_nil_r, Nat.add_0_r.
    repeat split; try lia. right. auto.
Qed.

Lemma mqtt_subscribe_outcome_witness :
  exists (r : Z) (w' : world) (n : nat),
    mqtt_subscribe 4 "lamp" 0 11 21 31
      (with_flag true (boot (fun n => (2 <=? n)%nat))) = Some (r, w') /\
    (n <= 4)%nat /\
    calls w' = [] ++ repeat (Esp_mqtt_subscribe "lamp" 0) n /\
    asked w' = (0 + n)%nat /\
    (1 <= n)%nat /\
    ((r = 0 /\
      globals w'
      = set_subscription_list
          [ {| sub_topic := "lamp"; sub_cb := 11; sub_ctx := 21;
               sub_free_cb := 31 |} ] (set_is_connected true initial_state))
     \/ (r = -1 /\ globals w' = set_is_connected true initial_state)).
Proof.
  apply (mqtt_subscribe_outcome 4 "lamp" 0 11 21 31
           (with_flag true (boot (fun n => (2 <=? n)%nat)))).
  lia.
Defined.

(** X8: while the flag is false, [mqtt_subscribe], [mqtt_unsubscribe] and
    [mqtt_publish] never reach the transport.  They return and consume no
    transport answer; [mqtt_subscribe] and [mqtt_publish] make no call at
    all, and the only call [mqtt_unsubscribe] can make is the destructor
    of the record it removes, the first whose topic starts with the
    namespaced topic, when its context and destructor are both set. *)
Theorem no_transport_call_while_disconnected (fuel : nat) (a : action)
  (w : world) :
  is_connected (globals w) = false ->
  (is_subscribe a || is_unsubscribe a || is_publish a)%bool = true ->
  let g := globals w in
  let es :=
    match a with
    | Unsubscribe topic_in =>
        match find (fun s =>
                      String.prefix (namespaced (prefix g) topic_in)
                        (sub_topic s)) (subscription_list g) with
        | Some s =>
            if negb (is_null (sub_ctx s)) && negb (is_null (sub_free_cb s))
            then [Call_free_cb (sub_free_cb s) (sub_ctx s)]
            else []
        | None => []
        end
    | _ => []
    end in
  exists w' : world,
    exec fuel a w = Some (tt, w') /\
    calls w' = calls w ++ es /\
    forallb (fun e => negb (is_transport_call e)) es = true /\
    asked w' = asked w.
Proof.
  intros Hc Ha. cbv zeta.
  destruct a; try discriminate Ha; cbn [exec]; unfold bind.
  - rewrite (mqtt_subscribe_disconnected_run fuel topic qos cb ctx free_cb
               w Hc).
    exists w. rewrite app_nil_r. auto.
  - rewrite mqtt_unsubscribe_run. cbv zeta. rewrite Hc.
    rewrite <- add_prefix_namespaced.
    eexists. split; [reflexivity|]. cbn.
    split; [reflexivity|]. split; [|reflexivity].
    apply (release_found_no_transport
             (first_prefixed (mqtt_add_prefix (prefix (globals w)) topic)
                (subscription_list (globals w)))).
  - rewrite mqtt_publish_run, Hc. eexists. split; [reflexivity|].
    cbn. rewrite app_nil_r. auto.
Qed.

Lemma no_transport_call_while_disconnected_witness :
  let s1 := {| sub_topic := "home/fan"; sub_cb := 12; sub_ctx := 22;
               sub_free_cb := 32 |} in
  let s2 := {| sub_topic := "home/lamp"; sub_cb := 11; sub_ctx := 21;
               sub_free_cb := 31 |} in
  let w := with_registry [s1; s2]
             (updated (set_prefix (Some "home/"%string))
                (boot (fun _ => true))) in
  exists w' : world,
    exec 4 (Unsubscribe "lamp") w = Some (tt, w') /\
    calls w' = calls w ++ [Call_free_cb 31 21] /\
    forallb (fun e => negb (is_transport_call e)) [Call_free_cb 31 21]
    = true /\
    asked w' = asked w.
Proof.
  cbv zeta.
  apply (no_transport_call_while_disconnected 4 (Unsubscribe "lamp")
           (with_registry
              [ {| sub_topic := "home/fan"; sub_cb := 12; sub_ctx := 22;
                   sub_free_cb := 32 |};
                {| sub_topic := "home/lamp"; sub_cb := 11; sub_ctx := 21;
                   sub_free_cb := 31 |} ]
              (updated (set_prefix (Some "home/"%string))
                 (boot (fun _ => true))))).
  - reflexivity.
  - reflexivity.
Defined.

(** X9: each global has its own writers.  The prefix is changed by
    [mqtt_connect] only; the connectivity flag by the status handler and
    [mqtt_disconnect] only (not by [mqtt_connect]); each registered
    callback by its setter only. *)
Theorem globals_writers (fuel : nat) (a : action) (w w' : world) :
  exec fuel a w = Some (tt, w') ->
  (is_connect a = false -> prefix (globals w') = prefix (globals w)) /\
  (is_status_or_disconnect a = false ->
   is_connected (globals w') = is_connected (globals w)) /\
  (is_set_on_connected_cb a = false ->
   on_connected_cb (globals w') = on_connected_cb (globals w)) /\
  (is_set_on_disconnected_cb a = false ->
   on_disconnected_cb (globals w') = on_disconnected_cb (globals w)).
Proof.
  destruct a; cbn [exec];
    try (intros H; inversion H; subst; cbn;
         repeat split; solve [auto | discriminate]).
  - unfold bind.
    destruct (mqtt_subscribe _ _ _ _ _ _ w) as [[r w0]|] eqn:Hs;
      [|discriminate].
    apply mqtt_subscribe_globals in Hs.
    unfold ret. intros H; inversion H; subst.
    destruct Hs as [(_ & ->) | (_ & _ & ->)]; repeat split; reflexivity.
  - unfold bind. rewrite mqtt_unsubscribe_run. cbv zeta.
    destruct (is_connected (globals w)) eqn:Hc;
      unfold ret; intros H; inversion H; subst; cbn;
      repeat split; auto.
  - unfold bind. rewrite mqtt_publish_run.
    destruct (is_connected (globals w)) eqn:Hc;
      unfold ret; intros H; inversion H; subst; cbn;
      repeat split; auto.
  - destruct status.
    + rewrite mqtt_status_cb_disconnected_run.
      intros H; inversion H; subst; cbn.
      repeat split; solve [auto | discriminate].
    + rewrite mqtt_status_cb_connected_run.
      destruct (flush_defined _); [|discriminate].
      intros H; inversion H; subst; cbn.
      repeat split; solve [auto | discriminate].
  - intros H. apply mqtt_message_cb_globals in H. rewrite H.
    repeat split; auto.
Qed.

Lemma globals_writers_witness :
  let a := Connect "broker" 1883 "id" "user" "pw" (Some "home/"%string) in
  let w := boot (fun _ => true) in
  let w' := {| globals := set_prefix (Some "home/"%string) initial_state;
               calls := [Esp_mqtt_start "broker" 1883 "id" "user" "pw"];
               answers := fun _ => true;
               asked := 0 |} in
  exec 4 a w = Some (tt, w') /\
  (is_status_or_disconnect a = false ->
   is_connected (globals w') = is_connected (globals w)).
Proof.
  cbv zeta. split; [reflexivity|].
  apply (globals_writers 4
           (Connect "broker" 1883 "id" "user" "pw" (Some "home/"%string))
           (boot (fun _ => true))).
  reflexivity.
Defined.

(** X10: only [mqtt_subscribe] adds to the registry.  After any other
    operation or event, every record of the registry was in it before. *)
Theorem registry_grows_only_by_subscribe (fuel : nat) (a : action)
  (w w' : world) :
  exec fuel a w = Some (tt, w') ->
  is_subscribe a = false ->
  incl (subscription_list (globals w')) (subscription_list (globals w)).
Proof.
  destruct a; cbn [exec is_subscribe]; try discriminate;
    try (intros H _; inversion H; subst; cbn; apply incl_refl).
  - unfold bind. rewrite mqtt_unsubscribe_run. cbv zeta.
    destruct (is_connected (globals w));
      unfold ret; intros H _; inversion H; subst; cbn;
      apply remove_first_prefixed_incl.
  - unfold bind. rewrite mqtt_publish_run.
    destruct (is_connected (globals w));
      unfold ret; intros H _; inversion H; subst; cbn; apply incl_refl.
  - destruct status.
    + rewrite mqtt_status_cb_disconnected_run.
      intros H _; inversion H; subst; cbn. apply incl_nil_l.
    + rewrite mqtt_status_cb_connected_run.
      destruct (flush_defined _); [|discriminate].
      intros H _; inversion H; subst; cbn. apply incl_refl.
  - intros H _. apply mqtt_message_cb_globals in H. rewrite H.
    apply incl_refl.
Qed.

Lemma registry_grows_only_by_subscribe_witness :
  let s := {| sub_topic := "lamp"; sub_cb := 11; sub_ctx := 21;
              sub_free_cb := 31 |} in
  let w := with_registry [s] (with_flag true (boot (fun _ => true))) in
  incl
    (subscription_list
       (globals
          {| globals := set_subscription_list [] (globals w);
             calls := [Call_free_cb 31 21; Esp_mqtt_unsubscribe "la"];
             answers := fun _ => true;
             asked := 1 |}))
    (subscription_list (globals w)).
Proof.
  cbv zeta.
  apply (registry_grows_only_by_subscribe 4 (Unsubscribe "la")).
  - reflexivity.
  - reflexivity.
Defined.

(** X11: only [mqtt_publish] adds to the queue of pending publications.
    After any other operation or event the queue is as it was, or
    empty. *)
Theorem queue_grows_only_by_publish (fuel : nat) (a : action) (w w' : world) :
  exec fuel a w = Some (tt, w') ->
  is_publish a = false ->
  publications_list (globals w') = publications_list (globals w) \/
  publications_list (globals w') = [].
Proof.
  destruct a; cbn [exec is_publish]; try discriminate;
    try (intros H _; inversion H; subst; cbn; now left).
  - unfold bind.
    destruct (mqtt_subscribe _ _ _ _ _ _ w) as [[r w0]|] eqn:Hs;
      [|discriminate].
    apply mqtt_subscribe_globals in Hs.
    unfold ret. intros H _; inversion H; subst.
    destruct Hs as [(_ & ->) | (_ & _ & ->)]; now left.
  - unfold bind. rewrite mqtt_unsubscribe_run. cbv zeta.
    destruct (is_connected (globals w));
      unfold ret; intros H _; inversion H; subst; cbn; now left.
  - destruct status.
    + rewrite mqtt_status_cb_disconnected_run.
      intros H _; inversion H; subst; cbn. now left.
    + rewrite mqtt_status_cb_connected_run.
      destruct (flush_defined _); [|discriminate].
      intros H _; inversion H; subst; cbn. now right.
  - intros H _. apply mqtt_message_cb_globals in H. rewrite H.
    now left.
Qed.

Lemma queue_grows_only_by_publish_witness :
  let w := {| globals :=
                set_publications_list
                  [ {| pub_topic := "t"; pub_payload := [x01]; pub_len := 1;
                       pub_qos := 0; pub_retained := 0 |} ] initial_state;
              calls := []; answers := fun _ => true; asked := 0 |} in
  publications_list
    (globals
       {| globals := set_is_connected false (globals w);
          calls := [Esp_mqtt_stop]; answers := fun _ => true; asked := 0 |})
  = publications_list (globals w) \/
  publications_list
    (globals
       {| globals := set_is_connected false (globals w);
          calls := [Esp_mqtt_stop]; answers := fun _ => true; asked := 0 |})
  = [].
Proof.
  cbv zeta. apply (queue_grows_only_by_publish 4 Disconnect).
  - reflexivity.
  - reflexivity.
Defined.

End Frames.

(** ** Status events, one after another *)

Section StatusFacts.

(** X12: contexts are released once.  Two disconnected events in a row
    call each record's destructor once, during the first; the second finds
    the registry empty and only calls the disconnected callback again. *)
Theorem disconnected_twice_releases_once (fuel : nat) (w : world) :
  let g := globals w in
  run fuel [Status ESP_MQTT_STATUS_DISCONNECTED;
            Status ESP_MQTT_STATUS_DISCONNECTED] w
  = Some (tt,
          {| globals := set_subscription_list [] (set_is_connected false g);
             calls := calls w
                      ++ flat_map release_calls (subscription_list g)
                      ++ notify_disconnected g
                      ++ notify_disconnected g;
             answers := answers w;
             asked := asked w |}).
Proof.
  cbv zeta. cbn [run exec]. unfold bind.
  rewrite mqtt_status_cb_disconnected_run. cbv zeta.
  rewrite mqtt_status_cb_disconnected_run. cbv zeta.
  unfold ret. cbn. do 3 f_equal. now rewrite <- !app_assoc.
Qed.

(** X13: queued publications are sent once.  From a state where the
    flush frees no queued topic twice (no prefix configured, or nothing
    queued), two connected events in a row flush the queue during the
    first; the second makes no transport call and only calls the connected
    callback again. *)
Theorem connected_twice_flushes_once (fuel : nat) (w : world) :
  flush_defined (globals w) = true ->
  let g := globals w in
  run fuel [Status ESP_MQTT_STATUS_CONNECTED;
            Status ESP_MQTT_STATUS_CONNECTED] w
  = Some (tt,
          {| globals := set_publications_list [] (set_is_connected true g);
             calls := calls w
                      ++ map sent (publications_list g)
                      ++ notify_connected g
                      ++ notify_connected g;
             answers := answers w;
             asked := (asked w + List.length (publications_list g))%nat |}).
Proof.
  intros Hd. cbv zeta. cbn [run exec]. unfold bind.
  rewrite mqtt_status_cb_connected_run, Hd. cbv zeta.
  rewrite mqtt_status_cb_connected_run.
  unfold flush_defined at 1.
  cbn [globals publications_list set_publications_list].
  rewrite orb_true_r. cbv zeta.
  unfold ret. cbn. rewrite (flush_calls_defined (globals w) Hd).
  do 2 f_equal. f_equal.
  - now rewrite <- !app_assoc.
  - lia.
Qed.

Lemma connected_twice_flushes_once_witness :
  let w := {| globals :=
                set_on_connected_cb 7
                  (set_publications_list
                     [ {| pub_topic := "t"; pub_payload := [x01];
                          pub_len := 1; pub_qos := 0; pub_retained := 0 |} ]
                     initial_state);
              calls := []; answers := fun _ => false; asked := 0 |} in
  run 4 [Status ESP_MQTT_STATUS_CONNECTED;
         Status ESP_MQTT_STATUS_CONNECTED] w
  = Some (tt,
          {| globals :=
               set_on_connected_cb 7 (set_is_connected true initial_state);
             calls := [Esp_mqtt_publish "t" [x01] 1 0 0;
                       Call_on_connected 7; Call_on_connected 7];
             answers := fun _ => false;
             asked := 1 |}).
Proof.
  cbv zeta.
  apply (connected_twice_flushes_once 4
           {| globals :=
                set_on_connected_cb 7
                  (set_publications_list
                     [ {| pub_topic := "t"; pub_payload := [x01];
                          pub_len := 1; pub_qos := 0; pub_retained := 0 |} ]
                     initial_state);
              calls := []; answers := fun _ => false; asked := 0 |}).
  reflexivity.
Defined.

(** X14: the flush does not look at what the transport answers.  From a
    state where the flush frees no queued topic twice, against any two
    transports, the connected event sends the same entries, makes the same
    calls and leaves the same globals, with the queue empty: a publication
    the transport refuses during the flush is neither retried nor kept. *)
Theorem flush_ignores_transport_answers (transport : nat -> bool) (w : world) :
  flush_defined (globals w) = true ->
  exists w1 w2,
    mqtt_status_cb ESP_MQTT_STATUS_CONNECTED w = Some (tt, w1) /\
    mqtt_status_cb ESP_MQTT_STATUS_CONNECTED (with_answers transport w)
    = Some (tt, w2) /\
    globals w1 = globals w2 /\
    calls w1 = calls w2 /\
    calls w1
    = calls w ++ map sent (publications_list (globals w))
      ++ notify_connected (globals w) /\
    asked w1 = asked w2 /\
    publications_list (globals w1) = [].
Proof.
  intros Hd. rewrite !mqtt_status_cb_connected_run.
  change (flush_defined (globals (with_answers transport w)))
    with (flush_defined (globals w)).
  rewrite Hd. eexists _, _.
  split; [reflexivity|]. split; [reflexivity|]. cbn.
  rewrite (flush_calls_defined (globals w) Hd). auto 10.
Qed.

Lemma flush_ignores_transport_answers_witness :
  let w := {| globals :=
                set_publications_list
                  [ {| pub_topic := "t"; pub_payload := [x01];
                       pub_len := 1; pub_qos := 0; pub_retained := 0 |} ]
                  initial_state;
              calls := []; answers := fun _ => true; asked := 0 |} in
  exists w1 w2,
    mqtt_status_cb ESP_MQTT_STATUS_CONNECTED w = Some (tt, w1) /\
    mqtt_status_cb ESP_MQTT_STATUS_CONNECTED (with_answers (fun _ => false) w)
    = Some (tt, w2) /\
    globals w1 = globals w2 /\
    calls w1 = calls w2 /\
    calls w1 = [Esp_mqtt_publish "t" [x01] 1 0 0] /\
    asked w1 = asked w2 /\
    publications_list (globals w1) = [].
Proof.
  cbv zeta.
  apply (flush_ignores_transport_answers (fun _ => false)
           {| globals :=
                set_publications_list
                  [ {| pub_topic := "t"; pub_payload := [x01];
                       pub_len := 1; pub_qos := 0; pub_retained := 0 |} ]
                  initial_state;
              calls := []; answers := fun _ => true; asked := 0 |}).
  reflexivity.
Defined.



End StatusFacts.

(** ** The queue, the registry and the session, further *)

Section SessionFacts.

Lemma remove_first_prefixed_length (t : string)
  (l : list mqtt_subscription_t) :
  List.length l
  = (List.length (remove_first_prefixed t l)
     + (if existsb (topic_starts_with t) l then 1 else 0))%nat.
Proof.
  induction l as [|s l IH]; [reflexivity|].
  cbn [remove_first_prefixed existsb].
  destruct (topic_starts_with t s); cbn [orb List.length]; lia.
Qed.

Lemma remove_first_prefixed_empty_topic (l : list mqtt_subscription_t) :
  remove_first_prefixed EmptyString l = tl l.
Proof.
  destruct l as [|s l]; [reflexivity|].
  cbn [remove_first_prefixed]. unfold topic_starts_with.
  now rewrite prefix_nil_l.
Qed.

(** X16: publications made while disconnected are flushed last in, first
    out.  With no prefix configured, from any disconnected state, a
    sequence of [mqtt_publish] calls followed by the connected event sends
    the new publications in the reverse of the order of the calls, each
    with its topic, the first [len] bytes of its payload, [len], qos and
    retained flag, then the entries that were queued before; it asks the
    transport once per entry and leaves the queue empty. *)
Theorem publications_flushed_in_reverse (fuel : nat)
  (reqs : list publish_args) (w : world) :
  mqtt_add_prefix_frees (prefix (globals w)) = false ->
  is_connected (globals w) = false ->
  let g := globals w in
  run fuel (map publish_action reqs ++ [Status ESP_MQTT_STATUS_CONNECTED]) w
  = Some (tt,
          {| globals := set_publications_list [] (set_is_connected true g);
             calls := calls w
                      ++ map (fun a =>
                                Esp_mqtt_publish (arg_topic a)
                                  (firstn (N.to_nat (arg_len a))
                                     (arg_payload a))
                                  (arg_len a) (arg_qos a) (arg_retained a))
                           (rev reqs)
                      ++ map sent (publications_list g)
                      ++ notify_connected g;
             answers := answers w;
             asked := (asked w + List.length reqs
                       + List.length (publications_list g))%nat |}).
Proof.
  intros Hf Hc. cbv zeta.
  rewrite run_app. rewrite run_publishes_disconnected by exact Hc.
  cbn [run exec]. unfold bind. rewrite mqtt_status_cb_connected_run.
  unfold flush_defined. cbn [globals updated prefix set_publications_list].
  rewrite Hf. cbn [negb orb].
  unfold ret. cbn. rewrite (flush_call_no_free _ _ Hf).
  rewrite map_app, map_rev, map_map.
  assert (Hm : map (fun a => sent (entry_of (globals w) a)) reqs
               = map (fun a =>
                        Esp_mqtt_publish (arg_topic a)
                          (firstn (N.to_nat (arg_len a)) (arg_payload a))
                          (arg_len a) (arg_qos a) (arg_retained a)) reqs).
  { apply map_ext. intros a. unfold sent, entry_of, queued_entry. cbn.
    now rewrite (add_prefix_no_free _ _ Hf). }
  rewrite Hm, map_rev, <- !app_assoc.
  do 2 f_equal. f_equal.
  rewrite length_app, length_rev, length_map. lia.
Qed.

Lemma publications_flushed_in_reverse_witness :
  run 4 (map publish_action
           [ {| arg_topic := "a"; arg_payload := [x01]; arg_len := 1;
                arg_qos := 0; arg_retained := 0 |};
             {| arg_topic := "b"; arg_payload := [x02]; arg_len := 1;
                arg_qos := 1; arg_retained := 1 |};
             {| arg_topic := "c"; arg_payload := [x03]; arg_len := 1;
                arg_qos := 2; arg_retained := 0 |} ]
         ++ [Status ESP_MQTT_STATUS_CONNECTED]) (boot (fun _ => false))
  = Some (tt,
          {| globals := set_is_connected true initial_state;
             calls := [Esp_mqtt_publish "c" [x03] 1 2 0;
                       Esp_mqtt_publish "b" [x02] 1 1 1;
                       Esp_mqtt_publish "a" [x01] 1 0 0];
             answers := fun _ => false;
             asked := 3 |}).
Proof.
  apply (publications_flushed_in_reverse 4
           [ {| arg_topic := "a"; arg_payload := [x01]; arg_len := 1;
                arg_qos := 0; arg_retained := 0 |};
             {| arg_topic := "b"; arg_payload := [x02]; arg_len := 1;
                arg_qos := 1; arg_retained := 1 |};
             {| arg_topic := "c"; arg_payload := [x03]; arg_len := 1;
                arg_qos := 2; arg_retained := 0 |} ]
           (boot (fun _ => false))).
  - reflexivity.
  - reflexivity.
Defined.

(** X17: the registry is empty while the flag is false, as long as
    [mqtt_disconnect] is not called.  From any state where this holds, it
    holds again after every sequence of operations and events that does
    not contain [mqtt_disconnect]. *)
Theorem registry_invariant_preserved (fuel : nat) (acts : list action)
  (w w' : world) :
  registry_invariant w ->
  Forall (fun a => a <> Disconnect) acts ->
  run fuel acts w = Some (tt, w') ->
  registry_invariant w'.
Proof.
  intros Hw Hall Hrun.
  apply (run_invariant fuel registry_invariant (fun a => a <> Disconnect))
    with (acts := acts) (w := w); trivial.
  intros a w0 w1. apply exec_registry_invariant.
Qed.

Lemma registry_invariant_preserved_witness :
  registry_invariant
    {| globals := initial_state;
       calls := [Esp_mqtt_subscribe "lamp" 0; Call_free_cb 31 21];
       answers := fun _ => true;
       asked := 1 |}.
Proof.
  apply (registry_invariant_preserved 4
           [Status ESP_MQTT_STATUS_CONNECTED;
            Subscribe "lamp" 0 11 21 31;
            Status ESP_MQTT_STATUS_DISCONNECTED]
           (boot (fun _ => true))).
  - intros _. reflexivity.
  - repeat constructor; discriminate.
  - reflexivity.
Defined.

(** X18: unsubscribing from the empty namespaced topic (no prefix, topic
    [""]) removes the first record of the registry, whatever its topic:
    [strncmp] over zero characters finds no difference. *)
Theorem unsubscribe_empty_topic_removes_head (topic_in : string) (w : world) :
  mqtt_add_prefix (prefix (globals w)) topic_in = EmptyString ->
  exists r w',
    mqtt_unsubscribe topic_in w = Some (r, w') /\
    subscription_list (globals w') = tl (subscription_list (globals w)).
Proof.
  intros Ht. rewrite mqtt_unsubscribe_run. cbv zeta. rewrite Ht.
  destruct (is_connected (globals w)); eexists _, _;
    (split; [reflexivity|]); cbn; apply remove_first_prefixed_empty_topic.
Qed.

Lemma unsubscribe_empty_topic_removes_head_witness :
  let s1 := {| sub_topic := "lamp"; sub_cb := 11; sub_ctx := 21;
               sub_free_cb := 0 |} in
  let s2 := {| sub_topic := "fan"; sub_cb := 12; sub_ctx := 22;
               sub_free_cb := 0 |} in
  exists r w',
    mqtt_unsubscribe "" (with_registry [s1; s2] (boot (fun _ => true)))
    = Some (r, w') /\
    subscription_list (globals w') = [s2].
Proof.
  cbv zeta.
  apply (unsubscribe_empty_topic_removes_head ""
           (with_registry
              [ {| sub_topic := "lamp"; sub_cb := 11; sub_ctx := 21;
                   sub_free_cb := 0 |};
                {| sub_topic := "fan"; sub_cb := 12; sub_ctx := 22;
                   sub_free_cb := 0 |} ] (boot (fun _ => true)))).
  reflexivity.
Defined.

(** X19: [mqtt_unsubscribe] removes at most one record.  The registry
    loses exactly one record if the topic of some record starts with the
    namespaced topic, and none otherwise; a second record for the same
    topic stays. *)
Theorem unsubscribe_removes_at_most_one (topic_in : string) (w : world) :
  let g := globals w in
  let topic := mqtt_add_prefix (prefix g) topic_in in
  exists r w',
    mqtt_unsubscribe topic_in w = Some (r, w') /\
    List.length (subscription_list g)
    = (List.length (subscription_list (globals w'))
       + (if existsb (fun s => String.prefix topic (sub_topic s))
               (subscription_list g)
          then 1 else 0))%nat.
Proof.
  cbv zeta. rewrite mqtt_unsubscribe_run. cbv zeta.
  destruct (is_connected (globals w)); eexists _, _;
    (split; [reflexivity|]); cbn; apply remove_first_prefixed_length.
Qed.

(** X20: [mqtt_disconnect] takes effect at once.  A publication made
    right after it is queued and not sent, and a subscription made right
    after it fails without reaching the transport, whatever the state
    before. *)
Theorem operations_after_mqtt_disconnect (fuel : nat) (topic_in : string)
  (payload : list byte) (len : N) (qos retained : Z) (cb ctx free_cb : ptr)
  (w : world) :
  let g := globals w in
  (mqtt_disconnect ;;; mqtt_publish topic_in payload len qos retained) w
  = Some (0,
          {| globals :=
               set_publications_list
                 ({| pub_topic := mqtt_add_prefix (prefix g) topic_in;
                     pub_payload := firstn (N.to_nat len) payload;
                     pub_len := len; pub_qos := qos;
                     pub_retained := retained |} :: publications_list g)
                 (set_is_connected false g);
             calls := calls w ++ [Esp_mqtt_stop];
             answers := answers w;
             asked := asked w |})
  /\
  (mqtt_disconnect ;;; mqtt_subscribe fuel topic_in qos cb ctx free_cb) w
  = Some (-1,
          {| globals := set_is_connected false g;
             calls := calls w ++ [Esp_mqtt_stop];
             answers := answers w;
             asked := asked w |}).
Proof.
  cbv zeta. split.
  - unfold mqtt_disconnect, esp_mqtt_stop. unfold bind at 1 2 3.
    unfold modify at 1. unfold emit at 1. unfold ret at 1.
    rewrite mqtt_publish_run. reflexivity.
  - unfold mqtt_disconnect, esp_mqtt_stop. unfold bind at 1 2 3.
    unfold modify at 1. unfold emit at 1. unfold ret at 1.
    now rewrite mqtt_subscribe_disconnected_run.
Qed.

(** X21: the prefix given to [mqtt_connect] is the one later operations
    use.  While connected, with the transport accepting the first attempt,
    [mqtt_connect] with prefix [p] followed by [mqtt_subscribe] asks the
    transport for, and stores, the topic namespaced with [p], whatever the
    prefix was before; a [NULL] or empty [p] leaves the topic as it is. *)
Theorem connect_prefix_namespaces_subscription (fuel : nat)
  (host : string) (port : Z) (client_id username password : string)
  (p : option string) (topic_in : string) (qos : Z) (cb ctx free_cb : ptr)
  (w : world) :
  is_connected (globals w) = true ->
  (4 <= fuel)%nat ->
  answers w (asked w) = true ->
  let g := globals w in
  let topic := mqtt_add_prefix p topic_in in
  (mqtt_connect host port client_id username password p ;;;
   mqtt_subscribe fuel topic_in qos cb ctx free_cb) w
  = Some (0,
          {| globals :=
               set_subscription_list
                 (subscription_list g
                  ++ [ {| sub_topic := topic; sub_cb := cb; sub_ctx := ctx;
                          sub_free_cb := free_cb |} ])
                 (set_prefix p g);
             calls := calls w
                      ++ [Esp_mqtt_start host port client_id username password;
                          Esp_mqtt_subscribe topic qos];
             answers := answers w;
             asked := S (asked w) |})
  /\ mqtt_add_prefix None topic_in = topic_in
  /\ mqtt_add_prefix (Some EmptyString) topic_in = topic_in.
Proof.
  intros Hc Hfuel Hacc. cbv zeta. split; [|split; reflexivity].
  unfold mqtt_connect, esp_mqtt_start. unfold bind at 1 2 3.
  unfold modify at 1. unfold emit at 1. unfold ret at 1.
  rewrite mqtt_subscribe_first_accept; trivial.
  do 2 f_equal. unfold stored_record, subscribe_call. cbn. f_equal.
  now rewrite <- app_assoc.
Qed.

Lemma connect_prefix_namespaces_subscription_witness :
  let w := with_flag true (boot (fun _ => true)) in
  (mqtt_connect "broker" 1883 "id" "user" "pw" (Some "home/"%string) ;;;
   mqtt_subscribe 4 "lamp" 0 11 21 31) w
  = Some (0,
          {| globals :=
               set_subscription_list
                 [ {| sub_topic := "home/lamp"; sub_cb := 11; sub_ctx := 21;
                      sub_free_cb := 31 |} ]
                 (set_prefix (Some "home/"%string) (globals w));
             calls := [Esp_mqtt_start "broker" 1883 "id" "user" "pw";
                       Esp_mqtt_subscribe "home/lamp" 0];
             answers := fun _ => true;
             asked := 1 |}).
Proof.
  cbv zeta.
  apply (connect_prefix_namespaces_subscription 4 "broker" 1883 "id" "user"
           "pw" (Some "home/"%string) "lamp" 0 11 21 31
           (with_flag true (boot (fun _ => true)))).
  - reflexivity.
  - lia.
  - reflexivity.
Defined.

End SessionFacts.

Section RetryAndPrefixFacts.

(** X22: while connected, [mqtt_subscribe] succeeds exactly when the
    transport accepts one of the first three attempts.  The answer to a
    fourth attempt does not count. *)
Theorem subscribe_succeeds_iff_accepted_in_three (fuel : nat)
  (topic_in : string) (qos : Z) (cb ctx free_cb : ptr) (w : world) :
  is_connected (globals w) = true ->
  (4 <= fuel)%nat ->
  exists w',
    mqtt_subscribe fuel topic_in qos cb ctx free_cb w
    = Some (if (answers w (asked w) || answers w (asked w + 1)
                || answers w (asked w + 2))%bool
            then 0 else -1, w').
Proof.
  intros Hc Hfuel.
  rewrite (mqtt_subscribe_connected topic_in qos cb ctx free_cb fuel w
             Hc Hfuel).
  cbv zeta. cbn [rejections].
  replace (asked w + 1)%nat with (S (asked w)) by lia.
  replace (asked w + 2)%nat with (S (S (asked w))) by lia.
  destruct (answers w (asked w)); cbn; [eexists; reflexivity|].
  destruct (answers w (S (asked w))); cbn; [eexists; reflexivity|].
  destruct (answers w (S (S (asked w)))); cbn; eexists; reflexivity.
Qed.

Lemma subscribe_succeeds_iff_accepted_in_three_witness :
  exists w',
    mqtt_subscribe 4 "lamp" 0 11 21 31
      (with_flag true (boot (fun n => (n =? 2)%nat)))
    = Some (0, w').
Proof.
  apply (subscribe_succeeds_iff_accepted_in_three 4 "lamp" 0 11 21 31
           (with_flag true (boot (fun n => (n =? 2)%nat)))).
  - reflexivity.
  - lia.
Defined.

(** X23: with a non-empty prefix [p], a publication made while
    disconnected is queued under [p ++ topic]; the flush of that entry
    calls the transport with the topic [p ++ p ++ topic], because
    [mqtt_publish] namespaces the stored topic again, and leaves the
    stored topic freed; the handler of the connected event, which then
    frees it a second time, does not return. *)
Theorem queued_topic_namespaced_twice (fuel : nat) (p topic_in : string)
  (payload : list byte) (len : N) (qos retained : Z) (w : world) :
  prefix (globals w) = Some p ->
  p <> EmptyString ->
  is_connected (globals w) = false ->
  let e := {| pub_topic := (p ++ topic_in)%string;
              pub_payload := firstn (N.to_nat len) payload;
              pub_len := len; pub_qos := qos; pub_retained := retained |} in
  let w1 := {| globals :=
                 set_publications_list (e :: publications_list (globals w))
                   (globals w);
               calls := calls w; answers := answers w; asked := asked w |} in
  run fuel [Publish topic_in payload len qos retained] w = Some (tt, w1) /\
  mqtt_publications_publish [e] (with_flag true w1)
  = Some ([Freed],
          {| globals := set_is_connected true (globals w1);
             calls := calls w
                      ++ [Esp_mqtt_publish (p ++ (p ++ topic_in))%string
                            (firstn (N.to_nat len) payload) len qos retained];
             answers := answers w;
             asked := S (asked w) |}) /\
  run fuel [Publish topic_in payload len qos retained;
            Status ESP_MQTT_STATUS_CONNECTED] w
  = None.
Proof.
  intros Hp Hne Hc. cbv zeta.
  assert (Hf : mqtt_add_prefix_frees (Some p) = true)
    by (destruct p; [congruence | reflexivity]).
  split; [|split].
  - cbn [run exec]. unfold bind. rewrite mqtt_publish_run, Hc.
    unfold ret. rewrite Hp, (add_prefix_set p _ Hne). reflexivity.
  - rewrite mqtt_publications_publish_connected by reflexivity.
    cbn [globals with_flag prefix set_is_connected set_publications_list].
    rewrite Hp, Hf. unfold flush_call.
    cbn [map pub_topic pub_payload pub_len pub_qos pub_retained
         List.length repeat].
    rewrite (add_prefix_set p _ Hne). f_equal. f_equal.
    unfold answered, called. cbn. f_equal. lia.
  - cbn [run exec]. unfold bind. rewrite mqtt_publish_run, Hc.
    unfold ret at 1. rewrite mqtt_status_cb_connected_run.
    unfold flush_defined.
    cbn [globals updated prefix publications_list set_publications_list].
    rewrite Hp, Hf. reflexivity.
Qed.

Lemma queued_topic_namespaced_twice_witness :
  let w := updated (set_prefix (Some "home/"%string)) (boot (fun _ => true)) in
  let e := {| pub_topic := "home/t"; pub_payload := [x01; x02; x03];
              pub_len := 3; pub_qos := 0; pub_retained := 0 |} in
  let w1 := {| globals := set_publications_list [e] (globals w);
               calls := []; answers := fun _ => true; asked := 0 |} in
  run 4 [Publish "t" [x01; x02; x03] 3 0 0] w = Some (tt, w1) /\
  mqtt_publications_publish [e] (with_flag true w1)
  = Some ([Freed],
          {| globals := set_is_connected true (globals w1);
             calls := [Esp_mqtt_publish "home/home/t" [x01; x02; x03] 3 0 0];
             answers := fun _ => true;
             asked := 1 |}) /\
  run 4 [Publish "t" [x01; x02; x03] 3 0 0;
         Status ESP_MQTT_STATUS_CONNECTED] w
  = None.
Proof.
  cbv zeta.
  apply (queued_topic_namespaced_twice 4 "home/" "t" [x01; x02; x03] 3 0 0
           (updated (set_prefix (Some "home/"%string))
              (boot (fun _ => true)))).
  - reflexivity.
  - discriminate.
  - reflexivity.
Defined.

End RetryAndPrefixFacts.
